(** * EK-SMS users module: service and repository

    A shallow embedding of [app/modules/users/service.py] and
    [app/modules/users/respository.py] (the module that the service
    imports as [app.modules.users.repository]), with the request schemas of
    [app/modules/users/schemas.py], and the properties of the user
    lifecycle and of credential verification proved over it.

    Conventions of the embedding:
    - Python [str] is [string], the text in its UTF-8 encoding: equality,
      emptiness and concatenation are those of the text.  [str.lower] is a
      parameter (class [Lower]), fixed only by the laws of [LowerLaws].
    - [datetime] columns are integers (a timestamp), Python [int] arguments
      are [Z].
    - The users table is the list of its rows.  The session is the table
      together with the sequence of repository calls issued so far, so that
      "which check ran, and in which order" can be stated.
    - A coroutine of the service is a function from the session to an
      outcome (a value or a raised exception) and the session afterwards.
    - [app.core.security] and [app.modules.users.models] are not part of
      the sources: the password primitive is a parameter of the service,
      and the columns that the entity constructor and the store fill in
      are an input of the creation.  The uniqueness constraints of the
      store ([store_refuses]) and its assignment of [updated_at] (class
      [OnUpdate]) follow the description of the data model. *)

From Stdlib Require Import ZArith Ascii.
From stdpp Require Import base list strings sorting.

Local Open Scope Z_scope.
Local Open Scope string_scope.
Local Open Scope list_scope.

(** ** Strings *)

(** [str.lower] for one character of the ASCII range. *)
Definition lower_ascii (c : ascii) : ascii :=
  let n := nat_of_ascii c in
  if ((65 <=? n) && (n <=? 90))%nat then ascii_of_nat (n + 32) else c.

(** [str.lower] on a text of the ASCII range: one character at a time. *)
Fixpoint ascii_fold (s : string) : string :=
  match s with
  | EmptyString => EmptyString
  | String c rest => String (lower_ascii c) (ascii_fold rest)
  end.

(** The texts of the ASCII range. *)
Fixpoint is_ascii_text (s : string) : bool :=
  match s with
  | EmptyString => true
  | String c rest => (nat_of_ascii c <? 128)%nat && is_ascii_text rest
  end.

(** Truth value of a [str]: only the empty string is falsy. *)
Definition truthy (s : string) : bool :=
  match s with
  | EmptyString => false
  | String _ _ => true
  end.

(** [str.lower] is a built-in of the language, aware of Unicode: it is a
    parameter of the embedding.  What the properties need of it are three
    facts that hold of the built-in: lowering twice is lowering once, the
    empty text is the only one that lowers to the empty text, and on a text
    of the ASCII range it lowers the letters A to Z and nothing else. *)
Class Lower := lower : string → string.

Class LowerLaws `{!Lower} : Prop := {
  lower_idemp : ∀ s, lower (lower s) = lower s;
  truthy_lower : ∀ s, truthy (lower s) = truthy s;
  lower_ascii_text : ∀ s, is_ascii_text s = true → lower s = ascii_fold s
}.

(** ** Entities and request schemas *)

(** Modelled from the spec: [app/modules/users/models.py] is not part of the
    sources.  The role is an enumeration with at least the default
    unprivileged member [STUDENT] (the default of [UserBase.role]); the
    other members are kept by name. *)
Inductive UserRole : Type :=
  | STUDENT
  | OTHER (name : string).

(** The mapped entity.  The columns are those the service assigns and those
    [UserResponse] reads back. *)
Module User.
Record t : Type := mk {
  id : string;
  email : string;
  first_name : string;
  last_name : string;
  phone : option string;
  role : UserRole;
  password_hash : string;
  is_active : bool;
  is_verified : bool;
  is_two_factor_enabled : bool;
  created_at : Z;
  updated_at : Z
}.

Definition set_email (v : string) (u : t) : t :=
  mk (id u) v (first_name u) (last_name u) (phone u) (role u)
     (password_hash u) (is_active u) (is_verified u)
     (is_two_factor_enabled u) (created_at u) (updated_at u).

Definition set_first_name (v : string) (u : t) : t :=
  mk (id u) (email u) v (last_name u) (phone u) (role u)
     (password_hash u) (is_active u) (is_verified u)
     (is_two_factor_enabled u) (created_at u) (updated_at u).

Definition set_last_name (v : string) (u : t) : t :=
  mk (id u) (email u) (first_name u) v (phone u) (role u)
     (password_hash u) (is_active u) (is_verified u)
     (is_two_factor_enabled u) (created_at u) (updated_at u).

Definition set_phone (v : option string) (u : t) : t :=
  mk (id u) (email u) (first_name u) (last_name u) v (role u)
     (password_hash u) (is_active u) (is_verified u)
     (is_two_factor_enabled u) (created_at u) (updated_at u).

Definition set_role (v : UserRole) (u : t) : t :=
  mk (id u) (email u) (first_name u) (last_name u) (phone u) v
     (password_hash u) (is_active u) (is_verified u)
     (is_two_factor_enabled u) (created_at u) (updated_at u).

Definition set_password_hash (v : string) (u : t) : t :=
  mk (id u) (email u) (first_name u) (last_name u) (phone u) (role u)
     v (is_active u) (is_verified u)
     (is_two_factor_enabled u) (created_at u) (updated_at u).

Definition set_is_active (v : bool) (u : t) : t :=
  mk (id u) (email u) (first_name u) (last_name u) (phone u) (role u)
     (password_hash u) v (is_verified u)
     (is_two_factor_enabled u) (created_at u) (updated_at u).

Definition set_updated_at (v : Z) (u : t) : t :=
  mk (id u) (email u) (first_name u) (last_name u) (phone u) (role u)
     (password_hash u) (is_active u) (is_verified u)
     (is_two_factor_enabled u) (created_at u) v.

(** Modelled from the spec: the columns that the service does not pass to
    the constructor ([models.py] is not part of the sources).  They are
    filled in by the column defaults and by the store when the row is
    flushed and refreshed; the embedding takes them as an input of the
    insertion. *)
Record Defaults : Type := mkDefaults {
  default_id : string;
  default_is_active : bool;
  default_is_verified : bool;
  default_is_two_factor_enabled : bool;
  default_created_at : Z;
  default_updated_at : Z
}.

(** [User(email=, first_name=, last_name=, phone=, role=, password_hash=)]
    once flushed and refreshed. *)
Definition new (d : Defaults) (email first_name last_name : string)
    (phone : option string) (role : UserRole) (password_hash : string) : t :=
  mk (default_id d) email first_name last_name phone role password_hash
     (default_is_active d) (default_is_verified d)
     (default_is_two_factor_enabled d)
     (default_created_at d) (default_updated_at d).
End User.

#[global] Instance UserRole_eq_dec : EqDecision UserRole.
Proof. solve_decision. Defined.

#[global] Instance User_eq_dec : EqDecision User.t.
Proof. solve_decision. Defined.

(** [schemas.UserCreate] (with the fields of [UserBase]). *)
Module UserCreate.
Record t : Type := mk {
  email : string;
  first_name : string;
  last_name : string;
  phone : option string;
  role : UserRole;
  password : string
}.
End UserCreate.

(** [schemas.UserUpdate]: every field is optional, [None] is the default. *)
Module UserUpdate.
Record t : Type := mk {
  email : option string;
  first_name : option string;
  last_name : option string;
  phone : option string;
  role : option UserRole;
  is_active : option bool
}.

(** The patch with no field set: [UserUpdate()]. *)
Definition empty : t := mk None None None None None None.
End UserUpdate.

(** ** Exceptions *)

(** The exception classes of [service.py], each with its message, and the
    exceptions of the mapper that the calls of the repository can raise:
    [scalar_one_or_none] on a result of several rows, the flush of a row
    that the store refuses, and the refresh of an entity that has no
    row. *)
Inductive Exn : Type :=
  | UserServiceError (msg : string)
  | UserNotFoundError (msg : string)
  | UserAlreadyExistsError (msg : string)
  | InvalidPasswordError (msg : string)
  | MultipleResultsFound
  | IntegrityError
  | InvalidRequestError.

Inductive Outcome (A : Type) : Type :=
  | Return (a : A)
  | Raise (e : Exn).
Arguments Return {A} a.
Arguments Raise {A} e.

(** ** The session *)

(** The calls of [UserRepository], as issued. *)
Inductive RepoCall : Type :=
  | CallGetById (user_id : string)
  | CallGetByEmail (email : string)
  | CallGetByPhone (phone : string)
  | CallList (skip limit : Z) (is_active : option bool)
  | CallCreate (user : User.t)
  | CallUpdate (user : User.t)
  | CallDelete (user : User.t)
  | CallExistsByEmail (email : string)
  | CallExistsByPhone (phone : string).

Record Session : Type := mkSession {
  rows : list User.t;
  calls : list RepoCall
}.

(** A coroutine run against the session. *)
Definition M (A : Type) : Type := Session → Outcome A * Session.

Definition raise {A} (e : Exn) : M A := λ s, (Raise e, s).

#[global] Instance M_ret : MRet M := λ A a s, (Return a, s).

#[global] Instance M_bind : MBind M := λ A B k m s,
  match m s with
  | (Return a, s') => k a s'
  | (Raise e, s') => (Raise e, s')
  end.

(** Record a repository call. *)
Definition called (c : RepoCall) : M unit :=
  λ s, (Return tt, mkSession (rows s) (calls s ++ [c])).

(** The rows of the table, as a query of the session reads them. *)
Definition select : M (list User.t) := λ s, (Return (rows s), s).

(** [Result.scalar_one_or_none()]. *)
Definition scalar_one_or_none {A} (result : list A) : M (option A) :=
  match result with
  | [] => mret None
  | [x] => mret (Some x)
  | _ :: _ :: _ => raise MultipleResultsFound
  end.

(** The table with the row of the primary key of [u] replaced by [u]. *)
Definition store_row (u : User.t) (table : list User.t) : list User.t :=
  (λ r, if decide (User.id r = User.id u) then u else r) <$> table.

(** Modelled from the spec: [models.py] is not part of the sources.  The
    store keeps the identifier, the email and the phone, when there is
    one, unique: it refuses a row that repeats one of them from a stored
    row.  The empty phone is a phone like any other for the store. *)
Definition store_refuses (user : User.t) (table : list User.t) : Prop :=
  Exists (λ r, User.id r = User.id user
               ∨ User.email r = User.email user
               ∨ (User.phone user ≠ None
                  ∧ User.phone r = User.phone user)) table.

#[global] Instance store_refuses_dec user table :
  Decision (store_refuses user table).
Proof. unfold store_refuses. apply _. Defined.

(** [session.add(user)] followed by the flush: the row joins the table,
    unless the store refuses it, which raises [IntegrityError] and leaves
    the table. *)
Definition session_add (user : User.t) : M unit :=
  λ s, if bool_decide (store_refuses user (rows s))
       then (Raise IntegrityError, s)
       else (Return tt, mkSession (rows s ++ [user]) (calls s)).

(** [session.delete(user)] followed by the flush: the row of that primary
    key leaves the table. *)
Definition session_delete (user : User.t) : M unit :=
  λ s, (Return tt,
        mkSession (filter (λ r, User.id r ≠ User.id user) (rows s)) (calls s)).

(** Modelled from the spec: [models.py] is not part of the sources.  The
    last-update timestamp is assigned by the system: when a changed row is
    written, the store gives [updated_at] a value of its own, here the
    parameter [onupdate] of the session at the write and of the row
    written (a store that keeps the column is the parameter that returns
    it). *)
Class OnUpdate := onupdate : Session → User.t → Z.

Definition touch `{!OnUpdate} (s : Session) (u : User.t) : User.t :=
  User.set_updated_at (onupdate s u) u.

(** Assignment to an attribute of a loaded entity, [user.x = v].  The
    entity is the one object that the session holds for its primary key.
    Assigning the value that the attribute already has is no change, and
    nothing is written.  A change is written with the next flush, at the
    latest before the next query of the session: it is seen by every
    later read of that row in the session, also when the coroutine raises
    afterwards, and the row written carries the [updated_at] of the
    store.  The service assigns an email or a phone only after its check
    that no row holds it, and the other columns carry no constraint: the
    store has no reason to refuse the write. *)
Definition setattr `{!OnUpdate} (f : User.t → User.t) (user : User.t)
    : M User.t :=
  λ s, if decide (f user = user) then (Return user, s)
       else (Return (touch s (f user)),
             mkSession (store_row (touch s (f user)) (rows s)) (calls s)).

(** [session.refresh(user)]: the entity is read back from the row of its
    primary key, with the columns as the store holds them. *)
Definition session_refresh (user : User.t) : M User.t :=
  table ← select;
  match filter (λ r, User.id r = User.id user) table with
  | [row] => mret row
  | _ => raise InvalidRequestError
  end.

(** ** Repository: [UserRepository] *)

(** [ORDER BY created_at DESC]: most recent first. *)
Definition created_desc (a b : User.t) : Prop :=
  (User.created_at b ≤ User.created_at a)%Z.

#[global] Instance created_desc_dec a b : Decision (created_desc a b).
Proof. unfold created_desc. apply _. Defined.

#[global] Instance created_desc_total : Total created_desc.
Proof. intros a b. unfold created_desc. lia. Qed.

#[global] Instance created_desc_trans : Transitive created_desc.
Proof. intros a b c. unfold created_desc. lia. Qed.

Definition order_by_created_at_desc (result : list User.t) : list User.t :=
  merge_sort created_desc result.

(** [WHERE is_active = ...], added to the query only for a given filter. *)
Definition where_is_active (is_active : option bool) (table : list User.t)
    : list User.t :=
  match is_active with
  | Some b => filter (λ u, User.is_active u = b) table
  | None => table
  end.

(** [OFFSET skip LIMIT limit].  The arguments are counts; below zero the
    model skips nothing and returns nothing, and the properties of the
    listing are stated for counts that are not negative. *)
Definition offset_limit (skip limit : Z) (result : list User.t) : list User.t :=
  take (Z.to_nat limit) (drop (Z.to_nat skip) result).

Module UserRepository.
Section Queries.
Context {str_lower : Lower}.

Definition get_by_id (user_id : string) : M (option User.t) :=
  called (CallGetById user_id);;
  table ← select;
  scalar_one_or_none (filter (λ u, User.id u = user_id) table).

Definition get_by_email (email : string) : M (option User.t) :=
  called (CallGetByEmail email);;
  table ← select;
  scalar_one_or_none (filter (λ u, User.email u = lower email) table).

Definition get_by_phone (phone : string) : M (option User.t) :=
  called (CallGetByPhone phone);;
  table ← select;
  scalar_one_or_none (filter (λ u, User.phone u = Some phone) table).

Definition create (user : User.t) : M User.t :=
  called (CallCreate user);;
  session_add user;;
  session_refresh user.

(** The flush finds the assignments to the entity written already (see
    [setattr]); the refresh reads the entity back from its row, with the
    [updated_at] of the store. *)
Definition update (user : User.t) : M User.t :=
  called (CallUpdate user);;
  session_refresh user.

Definition delete (user : User.t) : M unit :=
  called (CallDelete user);;
  session_delete user.

Definition exists_by_email (email : string) : M bool :=
  called (CallExistsByEmail email);;
  table ← select;
  mret (bool_decide
          (0 < length (filter (λ u, User.email u = lower email) table))%nat).

Definition exists_by_phone (phone : string) : M bool :=
  called (CallExistsByPhone phone);;
  table ← select;
  mret (bool_decide
          (0 < length (filter (λ u, User.phone u = Some phone) table))%nat).

Definition list (skip limit : Z) (is_active : option bool)
    : M (list User.t * nat) :=
  called (CallList skip limit is_active);;
  table ← select;
  let total := length (where_is_active is_active table) in
  let users :=
    offset_limit skip limit
      (order_by_created_at_desc (where_is_active is_active table)) in
  mret (users, total).

End Queries.
End UserRepository.

(** ** Service: [UserService] *)

Module UserService.
Section Security.

(** [app.core.security] is not part of the sources: the password
    primitive is a parameter of the service. *)
Variable hash_password : string → string.
Variable verify_password : string → string → bool.
Context {str_lower : Lower} {store_onupdate : OnUpdate}.

Definition get_by_id (user_id : string) : M User.t :=
  user ← UserRepository.get_by_id user_id;
  match user with
  | None =>
      raise (UserNotFoundError ("User with ID " +:+ user_id +:+ " not found"))
  | Some user => mret user
  end.

Definition get_by_email (email : string) : M User.t :=
  user ← UserRepository.get_by_email email;
  match user with
  | None =>
      raise (UserNotFoundError
               ("User with email " +:+ email +:+ " not found"))
  | Some user => mret user
  end.

Definition create (defaults : User.Defaults) (data : UserCreate.t)
    : M User.t :=
  (* Check if email already exists *)
  taken ← UserRepository.exists_by_email (UserCreate.email data);
  if taken : bool then
    raise (UserAlreadyExistsError
             ("User with email " +:+ UserCreate.email data
              +:+ " already exists"))
  else
  (* Check if phone already exists (if provided) *)
  match UserCreate.phone data with
  | Some phone =>
      if truthy phone then
        taken ← UserRepository.exists_by_phone phone;
        if taken : bool then
          raise (UserAlreadyExistsError
                   ("User with phone " +:+ phone +:+ " already exists"))
        else mret tt
      else mret tt
  | None => mret tt
  end;;
  (* Create user *)
  let user :=
    User.new defaults
      (lower (UserCreate.email data))
      (UserCreate.first_name data)
      (UserCreate.last_name data)
      (UserCreate.phone data)
      (UserCreate.role data)
      (hash_password (UserCreate.password data)) in
  UserRepository.create user.

Definition update (user_id : string) (data : UserUpdate.t) : M User.t :=
  user ← get_by_id user_id;
  (* Check email uniqueness if changing *)
  user ← match UserUpdate.email data with
         | Some email =>
             if truthy email && bool_decide (lower email ≠ User.email user)
             then
               taken ← UserRepository.exists_by_email email;
               if taken : bool then
                 raise (UserAlreadyExistsError
                          ("User with email " +:+ email
                           +:+ " already exists"))
               else setattr (User.set_email (lower email)) user
             else mret user
         | None => mret user
         end;
  (* Check phone uniqueness if changing *)
  user ← match UserUpdate.phone data with
         | Some phone =>
             if truthy phone && bool_decide (Some phone ≠ User.phone user)
             then
               taken ← UserRepository.exists_by_phone phone;
               if taken : bool then
                 raise (UserAlreadyExistsError
                          ("User with phone " +:+ phone
                           +:+ " already exists"))
               else setattr (User.set_phone (Some phone)) user
             else mret user
         | None => mret user
         end;
  (* Update other fields *)
  user ← match UserUpdate.first_name data with
         | Some v => setattr (User.set_first_name v) user
         | None => mret user
         end;
  user ← match UserUpdate.last_name data with
         | Some v => setattr (User.set_last_name v) user
         | None => mret user
         end;
  user ← match UserUpdate.role data with
         | Some v => setattr (User.set_role v) user
         | None => mret user
         end;
  user ← match UserUpdate.is_active data with
         | Some v => setattr (User.set_is_active v) user
         | None => mret user
         end;
  UserRepository.update user.

Definition update_password (user_id current_password new_password : string)
    : M User.t :=
  user ← get_by_id user_id;
  (* Verify current password *)
  if negb (verify_password current_password (User.password_hash user)) then
    raise (InvalidPasswordError "Current password is incorrect")
  else
  (* Update password *)
  user ← setattr (User.set_password_hash (hash_password new_password)) user;
  UserRepository.update user.

Definition delete (user_id : string) : M unit :=
  user ← get_by_id user_id;
  UserRepository.delete user.

Definition verify_credentials (email password : string) : M User.t :=
  user ← UserRepository.get_by_email email;
  match user with
  | None => raise (UserNotFoundError "Invalid email or password")
  | Some user =>
      if negb (verify_password password (User.password_hash user)) then
        raise (InvalidPasswordError "Invalid email or password")
      else if negb (User.is_active user) then
        raise (UserServiceError "User account is deactivated")
      else mret user
  end.

Definition list (page page_size : Z) (is_active : option bool)
    : M (list User.t * nat) :=
  let skip := (page - 1) * page_size in
  UserRepository.list skip page_size is_active.

End Security.
End UserService.

(** * Properties *)

Section Model.
Context {str_lower : Lower} {store_onupdate : OnUpdate}.

(** ** Invariants of the users table *)

(** The stored form of an email is lowercase. *)
Definition emails_normalized (table : list User.t) : Prop :=
  Forall (λ u, lower (User.email u) = User.email u) table.

(** The invariants of the data model: the identifier is unique, the email
    is unique and stored in lowercase, and an email is never empty (it went
    through [EmailStr]). *)
Definition table_ok (table : list User.t) : Prop :=
  NoDup (User.id <$> table)
  ∧ NoDup (User.email <$> table)
  ∧ emails_normalized table
  ∧ Forall (λ u, User.email u ≠ "") table.

#[global] Instance table_ok_dec table : Decision (table_ok table).
Proof. unfold table_ok, emails_normalized. apply _. Defined.

(** The active filter of the listing, as a predicate on one user. *)
Definition matches_active (is_active : option bool) (u : User.t) : Prop :=
  ∀ b, is_active = Some b → User.is_active u = b.

#[global] Instance matches_active_dec f u : Decision (matches_active f u).
Proof.
  unfold matches_active. destruct f as [b|].
  - destruct (decide (User.is_active u = b)) as [Heq|Hne].
    + left. intros b' [= <-]. exact Heq.
    + right. intros H. apply Hne. by apply H.
  - left. intros b' [=].
Defined.

(** An email is taken when some row stores its lowercase form. *)
Definition email_taken (email : string) (table : list User.t) : Prop :=
  Exists (λ r, User.email r = lower email) table.

(** A phone is taken when some row stores it. *)
Definition phone_taken (phone : string) (table : list User.t) : Prop :=
  Exists (λ r, User.phone r = Some phone) table.

(** The session after one more repository call. *)
Definition logged (s : Session) (c : RepoCall) : Session :=
  mkSession (rows s) (calls s ++ [c]).

(** The outcome and the final session of a run satisfy [Q]. *)
Definition post {A} (m : M A) (s : Session)
    (Q : Outcome A → Session → Prop) : Prop :=
  Q (m s).1 (m s).2.

(** The law of the password primitive: a hash verifies exactly the password
    it was made from. *)
Definition password_primitive_exact
    (hash_password : string → string)
    (verify_password : string → string → bool) : Prop :=
  ∀ password candidate,
    verify_password candidate (hash_password password) = true
    ↔ candidate = password.

(** A transparent stand-in for the password primitive, to run the service
    on examples. *)
Definition demo_hash_password (password : string) : string :=
  "$demo$" +:+ password.

Definition demo_verify_password (password password_hash : string) : bool :=
  bool_decide (password_hash = demo_hash_password password).

(** The entity after the assignment [f] in the session [s]: the entity
    itself when the assignment changes nothing, and otherwise the changed
    entity with the [updated_at] of the store. *)
Definition written (s : Session) (f : User.t → User.t) (user : User.t)
    : User.t :=
  if decide (f user = user) then user else touch s (f user).

(** [user] is [u] in every column but [updated_at], which the store
    assigns. *)
Definition stamped (u user : User.t) : Prop :=
  user = User.set_updated_at (User.updated_at user) u.

(** *** What a run of [update] can have done

    [update] on the stored user [u] works on one entity, assigned field by
    field.  [patched table patch u user] relates the entity [user] at any
    point of the run to [u]: a column is either still the one of [u] or
    was assigned from the patch, an email or a phone only after its
    uniqueness check against [table] passed.  Nothing is said of
    [updated_at], which the store assigns. *)
Record patched (table : list User.t) (patch : UserUpdate.t)
    (u user : User.t) : Prop := mkPatched {
  patched_id : User.id user = User.id u;
  patched_password_hash : User.password_hash user = User.password_hash u;
  patched_is_verified : User.is_verified user = User.is_verified u;
  patched_is_two_factor_enabled :
    User.is_two_factor_enabled user = User.is_two_factor_enabled u;
  patched_created_at : User.created_at user = User.created_at u;
  patched_email :
    User.email user = User.email u
    ∨ ∃ email, UserUpdate.email patch = Some email
               ∧ email ≠ "" ∧ lower email ≠ User.email u
               ∧ ¬ email_taken email table
               ∧ User.email user = lower email;
  patched_phone :
    User.phone user = User.phone u
    ∨ ∃ phone, UserUpdate.phone patch = Some phone
               ∧ phone ≠ "" ∧ Some phone ≠ User.phone u
               ∧ ¬ phone_taken phone table
               ∧ User.phone user = Some phone;
  patched_first_name :
    User.first_name user = User.first_name u
    ∨ UserUpdate.first_name patch = Some (User.first_name user);
  patched_last_name :
    User.last_name user = User.last_name u
    ∨ UserUpdate.last_name patch = Some (User.last_name user);
  patched_role :
    User.role user = User.role u
    ∨ UserUpdate.role patch = Some (User.role user);
  patched_is_active :
    User.is_active user = User.is_active u
    ∨ UserUpdate.is_active patch = Some (User.is_active user)
}.

(** The uniqueness checks among the calls [new] are those the patch asks
    for: a check of an email or of a phone is made only for a value of the
    patch that is not empty and differs from the stored one. *)
Definition checks_justified (patch : UserUpdate.t) (u : User.t)
    (new : list RepoCall) : Prop :=
  (∀ email, CallExistsByEmail email ∈ new →
     UserUpdate.email patch = Some email
     ∧ email ≠ "" ∧ lower email ≠ User.email u)
  ∧ (∀ phone, CallExistsByPhone phone ∈ new →
       UserUpdate.phone patch = Some phone
       ∧ phone ≠ "" ∧ Some phone ≠ User.phone u).

(** The state of a run of [update] started in [s]: the table is the one of
    [s] with the row of the entity replaced by [user]. *)
Definition update_inv (s : Session) (patch : UserUpdate.t)
    (u user : User.t) (s' : Session) : Prop :=
  rows s' = store_row user (rows s)
  ∧ patched (rows s) patch u user
  ∧ ∃ new, calls s' = calls s ++ new ∧ checks_justified patch u new.

(** The two ways [update] refuses a patch for a stored user. *)
Definition update_refusal (table : list User.t) (patch : UserUpdate.t)
    (u : User.t) (e : Exn) : Prop :=
  (∃ email, UserUpdate.email patch = Some email
            ∧ email ≠ "" ∧ lower email ≠ User.email u
            ∧ email_taken email table
            ∧ e = UserAlreadyExistsError
                    ("User with email " +:+ email +:+ " already exists"))
  ∨ (∃ phone, UserUpdate.phone patch = Some phone
              ∧ phone ≠ "" ∧ Some phone ≠ User.phone u
              ∧ phone_taken phone table
              ∧ e = UserAlreadyExistsError
                      ("User with phone " +:+ phone +:+ " already exists")).

(** After one step of [update] on the entity [user]. *)
Definition step_post (s : Session) (patch : UserUpdate.t) (u user : User.t)
    (o : Outcome User.t) (s' : Session) : Prop :=
  match o with
  | Return user' => update_inv s patch u user' s'
  | Raise e =>
      update_inv s patch u user s' ∧ update_refusal (rows s) patch u e
  end.

(** After [update]. *)
Definition update_post (s : Session) (patch : UserUpdate.t) (u : User.t)
    (o : Outcome User.t) (s' : Session) : Prop :=
  ∃ user,
    update_inv s patch u user s'
    ∧ match o with
      | Return r => r = user
      | Raise e => update_refusal (rows s) patch u e
      end.

(** *** The service as seen from its callers

    A request is one call of a coroutine of [UserService]; [serve] runs it
    and keeps the session, whatever the outcome.  A creation is
    [admissible] when its email went through [EmailStr] (it is not empty)
    and the identifier that the store assigns is fresh. *)
Inductive Request : Type :=
  | ReqGetById (user_id : string)
  | ReqGetByEmail (email : string)
  | ReqList (page page_size : Z) (is_active : option bool)
  | ReqCreate (defaults : User.Defaults) (data : UserCreate.t)
  | ReqUpdate (user_id : string) (data : UserUpdate.t)
  | ReqUpdatePassword (user_id current_password new_password : string)
  | ReqDelete (user_id : string)
  | ReqVerifyCredentials (email password : string).

Definition serve (hash_password : string → string)
    (verify_password : string → string → bool)
    (r : Request) (s : Session) : Session :=
  match r with
  | ReqGetById user_id => (UserService.get_by_id user_id s).2
  | ReqGetByEmail email => (UserService.get_by_email email s).2
  | ReqList page page_size is_active =>
      (UserService.list page page_size is_active s).2
  | ReqCreate defaults data =>
      (UserService.create hash_password defaults data s).2
  | ReqUpdate user_id data => (UserService.update user_id data s).2
  | ReqUpdatePassword user_id current_password new_password =>
      (UserService.update_password hash_password verify_password
         user_id current_password new_password s).2
  | ReqDelete user_id => (UserService.delete user_id s).2
  | ReqVerifyCredentials email password =>
      (UserService.verify_credentials verify_password email password s).2
  end.

Definition admissible (r : Request) (s : Session) : Prop :=
  match r with
  | ReqCreate defaults data =>
      UserCreate.email data ≠ ""
      ∧ User.default_id defaults ∉ User.id <$> rows s
  | _ => True
  end.

(** The sessions that the service builds from the empty table. *)
Inductive reachable (hash_password : string → string)
    (verify_password : string → string → bool) : Session → Prop :=
  | reachable_empty : reachable hash_password verify_password (mkSession [] [])
  | reachable_serve s r :
      reachable hash_password verify_password s →
      admissible r s →
      reachable hash_password verify_password
        (serve hash_password verify_password r s).

End Model.

(** A small table to run the service on: two active users and a
    deactivated one. *)
Definition demo_alice : User.t :=
  User.mk "u1" "alice@example.com" "Alice" "Abiola" (Some "076111111")
    STUDENT (demo_hash_password "alice-pass-1") true true false 100 100.

Definition demo_bob : User.t :=
  User.mk "u2" "bob@example.com" "Bob" "Bangura" (Some "076222222")
    (OTHER "TEACHER") (demo_hash_password "bob-pass-22") true false false
    200 200.

Definition demo_dora : User.t :=
  User.mk "u3" "dora@example.com" "Dora" "Davies" None
    STUDENT (demo_hash_password "dora-pass-3") false false false 300 300.

Definition demo_session : Session :=
  mkSession [demo_alice; demo_bob; demo_dora] [].

Definition demo_defaults : User.Defaults :=
  User.mkDefaults "u4" true false false 400 400.

(** Inputs of the worked examples. *)
Definition demo_create_clash : UserCreate.t :=
  UserCreate.mk "Bob@Example.COM" "Robert" "Bangura" (Some "076222222")
    STUDENT "another-pass".

Definition demo_create_fresh : UserCreate.t :=
  UserCreate.mk "Erin@Example.com" "Erin" "Eze" (Some "076555555")
    (OTHER "TEACHER") "erin-pass-5".

Definition demo_patch_name : UserUpdate.t :=
  UserUpdate.mk None (Some "Alicia") None None None None.

Definition demo_patch_blank_phone : UserUpdate.t :=
  UserUpdate.mk None None None (Some "") None None.

Definition demo_patch_bob_email : UserUpdate.t :=
  UserUpdate.mk (Some "BOB@example.com") None None None None None.

Definition demo_patch_own_email_own_phone : UserUpdate.t :=
  UserUpdate.mk (Some "ALICE@EXAMPLE.COM") None None (Some "076111111")
    None None.

(** The scenario of the two creations with the email of Alice, on a table
    where she is not stored yet. *)
Definition demo_session_others : Session :=
  mkSession [demo_bob; demo_dora] [].

Definition demo_create_alice : UserCreate.t :=
  UserCreate.mk "Alice@Example.com" "Alice" "Abiola" (Some "076111111")
    STUDENT "alice-pass-1".

Definition demo_create_alice_again : UserCreate.t :=
  UserCreate.mk "alice@example.com" "Alia" "Amara" None STUDENT
    "alia-pass-8".

Definition demo_defaults_next : User.Defaults :=
  User.mkDefaults "u6" true false false 600 600.

Definition demo_defaults_last : User.Defaults :=
  User.mkDefaults "u7" true false false 700 700.

Section Model_more.
Context {str_lower : Lower} {store_onupdate : OnUpdate}.

(** A phone that is not empty belongs to one user. *)
Definition phones_unique (table : list User.t) : Prop :=
  ∀ r1 r2 phone,
    r1 ∈ table → r2 ∈ table →
    User.phone r1 = Some phone → User.phone r2 = Some phone →
    phone ≠ "" → User.id r1 = User.id r2.

(** The fields of the patch that [update] has assigned after its first
    [stage] steps (email, phone, first name, last name, role, active
    flag, in the order of the source). *)
Definition assigned (stage : nat) (patch : UserUpdate.t) (user : User.t)
    : Prop :=
  (1 ≤ stage → ∀ email, UserUpdate.email patch = Some email →
                 email ≠ "" → User.email user = lower email)%nat
  ∧ (2 ≤ stage → ∀ phone, UserUpdate.phone patch = Some phone →
                   phone ≠ "" → User.phone user = Some phone)%nat
  ∧ (3 ≤ stage → ∀ v, UserUpdate.first_name patch = Some v →
                   User.first_name user = v)%nat
  ∧ (4 ≤ stage → ∀ v, UserUpdate.last_name patch = Some v →
                   User.last_name user = v)%nat
  ∧ (5 ≤ stage → ∀ v, UserUpdate.role patch = Some v →
                   User.role user = v)%nat
  ∧ (6 ≤ stage → ∀ v, UserUpdate.is_active patch = Some v →
                   User.is_active user = v)%nat.

(** The pages 1 to [n] of the listing, fetched one after the other in the
    same session; a call that raises contributes no page. *)
Fixpoint fetch_pages (n : nat) (page_size : Z) (is_active : option bool)
    (s : Session) : list (list User.t) * Session :=
  match n with
  | O => ([], s)
  | S n' =>
      let '(pages, s1) := fetch_pages n' page_size is_active s in
      match UserService.list (Z.of_nat n) page_size is_active s1 with
      | (Return (items, _), s2) => (pages ++ [items], s2)
      | (Raise _, s2) => (pages, s2)
      end
  end.

End Model_more.

(** More inputs of the worked examples: a user stored with the empty
    phone, creations and patches around the phone and the email. *)
Definition demo_blank : User.t :=
  User.mk "u5" "carl@example.com" "Carl" "Cole" (Some "")
    STUDENT (demo_hash_password "carl-pass-5") true false false 500 500.

Definition demo_session_blank : Session :=
  mkSession [demo_alice; demo_blank] [].

Definition demo_create_blank : UserCreate.t :=
  UserCreate.mk "Finn@Example.com" "Finn" "Foday" (Some "") STUDENT
    "finn-pass-6".

Definition demo_create_bob_phone : UserCreate.t :=
  UserCreate.mk "gina@example.com" "Gina" "Gbla" (Some "076222222") STUDENT
    "gina-pass-7".

Definition demo_create_bob_again : UserCreate.t :=
  UserCreate.mk "BOB@Example.com" "Bob" "Bangura" (Some "076222222")
    (OTHER "TEACHER") "bob-pass-23".

Definition demo_patch_new_email : UserUpdate.t :=
  UserUpdate.mk (Some "Alice.New@Example.com") None (Some "Abiola-Cole")
    None None None.

Definition demo_patch_bob_phone : UserUpdate.t :=
  UserUpdate.mk None None None (Some "076222222") None None.

Definition demo_patch_new_email_bob_phone : UserUpdate.t :=
  UserUpdate.mk (Some "Alice.New@Example.com") None None (Some "076222222")
    None None.

Definition demo_patch_deactivate : UserUpdate.t :=
  UserUpdate.mk None None None None None (Some false).

(** [str.lower] for the worked examples, whose texts are of the ASCII
    range. *)
Definition demo_lower : Lower := ascii_fold.

(** A store for the worked examples: it stamps a written row with a clock
    that advances with the calls of the session. *)
Definition demo_onupdate : OnUpdate :=
  λ s _, 1000 + Z.of_nat (length (calls s)).

(** A history of four requests from the empty table: two creations with
    their own phones, then a creation and an update that ask for a phone
    already given. *)
Definition demo_create_hawa : UserCreate.t :=
  UserCreate.mk "hawa@example.com" "Hawa" "Harding" (Some "076222222")
    STUDENT "hawa-pass-9".

Definition demo_serve (r : Request) (s : Session) : Session :=
  serve (str_lower := demo_lower) (store_onupdate := demo_onupdate)
    demo_hash_password demo_verify_password r s.

Definition demo_history_2 : Session :=
  demo_serve (ReqCreate demo_defaults_next demo_create_bob_phone)
    (demo_serve (ReqCreate demo_defaults demo_create_fresh)
       (mkSession [] [])).

Definition demo_history : Session :=
  demo_serve (ReqUpdate "u4" demo_patch_bob_phone)
    (demo_serve (ReqCreate demo_defaults_last demo_create_hawa)
       demo_history_2).

(** ** Facts about strings *)

Lemma lower_ascii_idemp c : lower_ascii (lower_ascii c) = lower_ascii c.
Proof. destruct c as [[] [] [] [] [] [] [] []]; reflexivity. Qed.

Lemma ascii_fold_idemp s : ascii_fold (ascii_fold s) = ascii_fold s.
Proof.
  induction s as [|c s IH]; simpl; [done|].
  by rewrite lower_ascii_idemp, IH.
Qed.

Lemma truthy_ascii_fold s : truthy (ascii_fold s) = truthy s.
Proof. by destruct s. Qed.

(** The fold of the ASCII range satisfies the laws of [str.lower]. *)
Lemma demo_lower_laws : @LowerLaws demo_lower.
Proof.
  split.
  - apply ascii_fold_idemp.
  - apply truthy_ascii_fold.
  - done.
Qed.

Section properties.
Context {str_lower : Lower} {str_lower_laws : LowerLaws}.
Context {store_onupdate : OnUpdate}.

Lemma truthy_true s : truthy s = true ↔ s ≠ "".
Proof. destruct s; simpl; split; intros; done. Qed.

Lemma lower_empty_iff s : lower s = "" ↔ s = "".
Proof.
  pose proof (truthy_lower s) as Ht.
  destruct s as [|c s]; simpl in Ht.
  - by destruct (lower "").
  - split; [|done]. intros Hl. by rewrite Hl in Ht.
Qed.

(** ** Rows *)

Section rows.
Context {B : Type} `{!EqDecision B} (f : User.t → B).

Lemma filter_nil_not_taken (x : B) (table : list User.t) :
  filter (λ r, f r = x) table = [] ↔ ¬ ∃ r, r ∈ table ∧ f r = x.
Proof.
  split.
  - intros Hnil (r & Hin & Hr).
    assert (r ∈ filter (λ r, f r = x) table) as Hf
      by (apply list_elem_of_filter; done).
    rewrite Hnil in Hf. by apply elem_of_nil in Hf.
  - intros Hno. destruct (filter _ table) as [|r l] eqn:Hf; [done|].
    exfalso. apply Hno. exists r.
    assert (r ∈ filter (λ r, f r = x) table) as Hin
      by (rewrite Hf; left).
    apply list_elem_of_filter in Hin as [? ?]. done.
Qed.

Lemma count_pos_taken (x : B) (table : list User.t) :
  (0 < length (filter (λ r, f r = x) table))%nat
  ↔ ∃ r, r ∈ table ∧ f r = x.
Proof.
  destruct (filter (λ r, f r = x) table) as [|r l] eqn:Hf; simpl.
  - apply filter_nil_not_taken in Hf. split; [lia|done].
  - split; [intros _|lia]. exists r.
    assert (r ∈ filter (λ r, f r = x) table) as Hin
      by (rewrite Hf; left).
    apply list_elem_of_filter in Hin as [? ?]. done.
Qed.

(** A unique key selects exactly the row that holds it. *)
Lemma filter_unique_key (u : User.t) (table : list User.t) :
  NoDup (f <$> table) → u ∈ table →
  filter (λ r, f r = f u) table = [u].
Proof.
  induction table as [|r table IH]; intros Hnd Hin.
  - by apply elem_of_nil in Hin.
  - rewrite fmap_cons in Hnd. apply NoDup_cons in Hnd as [Hr Hnd].
    rewrite filter_cons. apply elem_of_cons in Hin as [->|Hin].
    + rewrite decide_True by done. f_equal.
      apply filter_nil_not_taken. intros (r' & Hr' & Heq).
      apply Hr. rewrite <- Heq. by apply list_elem_of_fmap_2.
    + rewrite decide_False; [by apply IH|].
      intros Heq. apply Hr. rewrite Heq. by apply list_elem_of_fmap_2.
Qed.
End rows.

(** ** Running the repository *)

Lemma post_bind {A B} (m : M A) (k : A → M B) s Q :
  post m s (λ o s', match o with
                    | Return a => post (k a) s' Q
                    | Raise e => Q (Raise e) s'
                    end) →
  post (m ≫= k) s Q.
Proof.
  unfold post, mbind, M_bind. destruct (m s) as [[a|e] s']; simpl; done.
Qed.

Lemma post_mono {A} (m : M A) s (P Q : Outcome A → Session → Prop) :
  post m s P → (∀ o s', P o s' → Q o s') → post m s Q.
Proof. unfold post. auto. Qed.

(** Unfold the plumbing of a coroutine. *)
Ltac run :=
  unfold mbind, M_bind, mret, M_ret, raise, called, select, setattr,
    session_add, session_delete, logged; simpl.

Lemma repo_get_by_id_run user_id s :
  UserRepository.get_by_id user_id s =
  (match filter (λ u, User.id u = user_id) (rows s) with
   | [] => Return None
   | [u] => Return (Some u)
   | _ => Raise MultipleResultsFound
   end, logged s (CallGetById user_id)).
Proof.
  unfold UserRepository.get_by_id; run.
  by destruct (filter _ (rows s)) as [|u [|u' l]].
Qed.

Lemma repo_get_by_email_run email s :
  UserRepository.get_by_email email s =
  (match filter (λ u, User.email u = lower email) (rows s) with
   | [] => Return None
   | [u] => Return (Some u)
   | _ => Raise MultipleResultsFound
   end, logged s (CallGetByEmail email)).
Proof.
  unfold UserRepository.get_by_email; run.
  by destruct (filter _ (rows s)) as [|u [|u' l]].
Qed.

Lemma repo_exists_by_email_run email s :
  UserRepository.exists_by_email email s =
  (Return (bool_decide (email_taken email (rows s))),
   logged s (CallExistsByEmail email)).
Proof.
  unfold UserRepository.exists_by_email; run.
  do 2 f_equal. apply bool_decide_ext.
  rewrite (count_pos_taken User.email). unfold email_taken.
  by rewrite Exists_exists.
Qed.

Lemma repo_exists_by_phone_run phone s :
  UserRepository.exists_by_phone phone s =
  (Return (bool_decide (phone_taken phone (rows s))),
   logged s (CallExistsByPhone phone)).
Proof.
  unfold UserRepository.exists_by_phone; run.
  do 2 f_equal. apply bool_decide_ext.
  rewrite (count_pos_taken User.phone). unfold phone_taken.
  by rewrite Exists_exists.
Qed.

Lemma session_refresh_run user s :
  filter (λ r, User.id r = User.id user) (rows s) = [user] →
  session_refresh user s = (Return user, s).
Proof.
  intros Hrow. unfold session_refresh, mbind, M_bind, select.
  by rewrite Hrow.
Qed.

Lemma repo_update_run user s :
  filter (λ r, User.id r = User.id user) (rows s) = [user] →
  UserRepository.update user s = (Return user, logged s (CallUpdate user)).
Proof.
  intros Hrow. unfold UserRepository.update, mbind, M_bind, called.
  by rewrite session_refresh_run.
Qed.

Lemma service_get_by_id_found user_id u s :
  filter (λ r, User.id r = user_id) (rows s) = [u] →
  UserService.get_by_id user_id s = (Return u, logged s (CallGetById user_id)).
Proof.
  intros Hf. unfold UserService.get_by_id, mbind, M_bind.
  rewrite repo_get_by_id_run, Hf. reflexivity.
Qed.

Lemma stored_get_by_id u s :
  table_ok (rows s) → u ∈ rows s →
  UserService.get_by_id (User.id u) s
  = (Return u, logged s (CallGetById (User.id u))).
Proof.
  intros (Hid & _) Hin. apply service_get_by_id_found.
  by apply (filter_unique_key User.id).
Qed.

Lemma stored_email_lookup u s :
  table_ok (rows s) → u ∈ rows s →
  filter (λ r, User.email r = lower (User.email u)) (rows s) = [u].
Proof.
  intros (_ & Hem & Hlow & _) Hin.
  unfold emails_normalized in Hlow. rewrite Forall_forall in Hlow.
  rewrite (Hlow u Hin). by apply (filter_unique_key User.email).
Qed.

Lemma insensitive_match_taken email u table :
  emails_normalized table → u ∈ table →
  lower (User.email u) = lower email →
  email_taken email table.
Proof.
  intros Hlow Hin Heq. unfold emails_normalized in Hlow.
  rewrite Forall_forall in Hlow.
  apply Exists_exists. exists u. split; [done|].
  by rewrite <- (Hlow u Hin).
Qed.

(** ** Assignment to a stored row *)

Lemma unique_key_inj {B} `{!EqDecision B} (f : User.t → B) table x y :
  NoDup (f <$> table) → x ∈ table → y ∈ table → f x = f y → x = y.
Proof.
  intros Hnd Hx Hy Heq.
  assert (x ∈ filter (λ r, f r = f y) table) as Hin
    by (by apply list_elem_of_filter).
  rewrite (filter_unique_key f y table Hnd Hy) in Hin.
  by apply list_elem_of_singleton in Hin.
Qed.

Lemma store_row_fmap {B} (f : User.t → B) u u' table :
  NoDup (User.id <$> table) → u ∈ table →
  User.id u' = User.id u → f u' = f u →
  f <$> store_row u' table = f <$> table.
Proof.
  intros Hnd Hin Hid Hf. unfold store_row.
  rewrite <- list_fmap_compose. apply list_fmap_ext.
  intros i r Hr; simpl. case_decide as Hd; [|done].
  rewrite Hf. f_equal. symmetry.
  apply (unique_key_inj User.id table); [done| |done|congruence].
  by apply list_elem_of_lookup_2 in Hr.
Qed.

Lemma store_row_ids u' table :
  User.id <$> store_row u' table = User.id <$> table.
Proof.
  unfold store_row. rewrite <- list_fmap_compose. apply list_fmap_ext.
  intros i r _; simpl. by case_decide.
Qed.

Lemma store_row_same u table :
  NoDup (User.id <$> table) → u ∈ table → store_row u table = table.
Proof.
  intros Hnd Hin. rewrite <- (list_fmap_id table) at 2.
  unfold store_row. apply list_fmap_ext.
  intros i r Hr; simpl. case_decide as Hd; [|done].
  symmetry. apply (unique_key_inj User.id table); [done| |done|done].
  by apply list_elem_of_lookup_2 in Hr.
Qed.

Lemma store_row_twice u1 u2 table :
  User.id u1 = User.id u2 →
  store_row u2 (store_row u1 table) = store_row u2 table.
Proof.
  intros Hid. unfold store_row.
  rewrite <- list_fmap_compose. apply list_fmap_ext.
  intros i r _; simpl. repeat case_decide; congruence.
Qed.

Lemma elem_of_store_row u u' table :
  u ∈ table → User.id u' = User.id u → u' ∈ store_row u' table.
Proof.
  intros Hin Hid. unfold store_row.
  apply list_elem_of_fmap. exists u. split; [|done].
  by rewrite decide_True.
Qed.

Lemma elem_of_store_row_inv r u' table :
  r ∈ store_row u' table → r = u' ∨ (r ∈ table ∧ User.id r ≠ User.id u').
Proof.
  unfold store_row. intros (r0 & -> & Hin)%list_elem_of_fmap.
  case_decide; [by left|by right].
Qed.

(** Replacing a stored row by one with the same identifier and the same
    email keeps the invariants of the table. *)
Lemma stored_row_after user u table :
  NoDup (User.id <$> table) → u ∈ table → User.id user = User.id u →
  filter (λ r, User.id r = User.id u) (store_row user table) = [user].
Proof.
  intros Hnd Hin Hid. rewrite <- Hid.
  apply (filter_unique_key User.id).
  - by rewrite store_row_ids.
  - by apply (elem_of_store_row u).
Qed.

Lemma refreshed_row user u table :
  NoDup (User.id <$> table) → u ∈ table → User.id user = User.id u →
  filter (λ r, User.id r = User.id user) (store_row user table) = [user].
Proof. intros Hnd Hin Hid. rewrite Hid. by apply stored_row_after. Qed.

Lemma store_row_table_ok u u' table :
  table_ok table → u ∈ table →
  User.id u' = User.id u → User.email u' = User.email u →
  table_ok (store_row u' table).
Proof.
  intros (Hid & Hem & Hlow & Hne) Hin Hi He.
  unfold table_ok, emails_normalized in *.
  rewrite store_row_ids, (store_row_fmap User.email u u') by done.
  rewrite Forall_forall in Hlow. rewrite Forall_forall in Hne.
  split_and!; [done|done|..];
    apply Forall_forall; intros r Hr;
    apply elem_of_store_row_inv in Hr as [->|[Hr _]];
    rewrite ?He; auto.
Qed.

(** ** Credential verification *)

Section with_password_primitive.
Variable hash_password : string → string.
Variable verify_password : string → string → bool.

(** C1.  [verify_credentials] makes three checks in order.  With no row for
    the (lowercased) email it raises [UserNotFoundError]; with a row whose
    hash does not verify the password it raises [InvalidPasswordError];
    with a verified password on a deactivated row it raises the base
    [UserServiceError]; it returns the row exactly when the three checks
    pass, and it never writes to the table.  In particular a stored user
    with [is_active = false] and the right password gets
    [UserServiceError]. *)
Theorem verify_credentials_checks (s : Session) (password : string) :
  (∀ email,
     let found := filter (λ u, User.email u = lower email) (rows s) in
     let run := UserService.verify_credentials verify_password email password s in
     (found = [] →
        run.1 = Raise (UserNotFoundError "Invalid email or password"))
     ∧ (∀ u, found = [u] →
          verify_password password (User.password_hash u) = false →
          run.1 = Raise (InvalidPasswordError "Invalid email or password"))
     ∧ (∀ u, found = [u] →
          verify_password password (User.password_hash u) = true →
          User.is_active u = false →
          run.1 = Raise (UserServiceError "User account is deactivated"))
     ∧ (∀ u, found = [u] →
          verify_password password (User.password_hash u) = true →
          User.is_active u = true →
          run.1 = Return u)
     ∧ (∀ u, run.1 = Return u →
          found = [u]
          ∧ verify_password password (User.password_hash u) = true
          ∧ User.is_active u = true)
     ∧ rows run.2 = rows s)
  ∧ (∀ u, table_ok (rows s) → u ∈ rows s →
       User.is_active u = false →
       verify_password password (User.password_hash u) = true →
       (UserService.verify_credentials verify_password (User.email u)
          password s).1
       = Raise (UserServiceError "User account is deactivated")).
Proof.
  assert (∀ email u,
    filter (λ u, User.email u = lower email) (rows s) = [u] →
    verify_password password (User.password_hash u) = true →
    User.is_active u = false →
    (UserService.verify_credentials verify_password email password s).1
    = Raise (UserServiceError "User account is deactivated")) as Hdeact.
  { intros email u Hf Hv Ha.
    unfold UserService.verify_credentials, mbind, M_bind.
    rewrite repo_get_by_email_run, Hf, Hv, Ha. reflexivity. }
  split.
  - intros email found run0. subst found run0.
    unfold UserService.verify_credentials, mbind, M_bind.
    rewrite repo_get_by_email_run.
    destruct (filter _ (rows s)) as [|u [|u' l]] eqn:Hf; simpl.
    + split_and!; done.
    + split_and!; try done.
      * intros u0 [= <-] Hv. by rewrite Hv.
      * intros u0 [= <-] Hv Ha. by rewrite Hv, Ha.
      * intros u0 [= <-] Hv Ha. by rewrite Hv, Ha.
      * intros u0 Hrun.
        destruct (verify_password password (User.password_hash u)) eqn:Hv;
          simpl in Hrun; [|done].
        destruct (User.is_active u) eqn:Ha; simpl in Hrun; [|done].
        by injection Hrun as <-.
      * destruct (verify_password password (User.password_hash u));
          simpl; [|done].
        by destruct (User.is_active u).
    + split_and!; done.
  - intros u Hok Hin Ha Hv.
    apply (Hdeact _ u); [|done..]. by apply stored_email_lookup.
Qed.

(** ** Creation *)

Lemma store_refuses_iff user table :
  store_refuses user table
  ↔ User.id user ∈ User.id <$> table
    ∨ User.email user ∈ User.email <$> table
    ∨ ∃ phone, User.phone user = Some phone ∧ phone_taken phone table.
Proof.
  unfold store_refuses, phone_taken.
  rewrite Exists_exists. split.
  - intros (r & Hin & [Hid|[Hem|[Hsome Hph]]]).
    + left. rewrite <- Hid. by apply list_elem_of_fmap_2.
    + right. left. rewrite <- Hem. by apply list_elem_of_fmap_2.
    + right. right. destruct (User.phone user) as [phone|] eqn:Hp; [|done].
      exists phone. split; [done|]. apply Exists_exists. by exists r.
  - intros [(r & Hid & Hin)%list_elem_of_fmap
           |[(r & Hem & Hin)%list_elem_of_fmap
            |(phone & Hp & (r & Hin & Hph)%Exists_exists)]];
      exists r; (split; [done|]); [by left|by right; left|].
    right. right. rewrite Hp. by split.
Qed.

(** The store takes a row whose identifier, email and phone are new. *)
Lemma store_accepts user table :
  User.id user ∉ User.id <$> table →
  (∀ r, r ∈ table → User.email r ≠ User.email user) →
  (∀ r phone, r ∈ table → User.phone user = Some phone →
              User.phone r ≠ Some phone) →
  bool_decide (store_refuses user table) = false.
Proof.
  intros Hid Hem Hph. apply bool_decide_eq_false_2.
  intros (r & Hin & [Heq|[Heq|[Hsome Heq]]])%Exists_exists.
  - apply Hid. rewrite <- Heq. by apply list_elem_of_fmap_2.
  - by apply (Hem r).
  - destruct (User.phone user) as [phone|] eqn:Hp; [|done].
    by apply (Hph r phone).
Qed.

Lemma repo_create_run user s :
  UserRepository.create user s
  = if bool_decide (store_refuses user (rows s)) then
      (Raise IntegrityError, logged s (CallCreate user))
    else
      (Return user,
       mkSession (rows s ++ [user]) (calls s ++ [CallCreate user])).
Proof.
  unfold UserRepository.create, session_add, called, mbind, M_bind.
  cbn [rows calls].
  destruct (bool_decide (store_refuses user (rows s))) eqn:Hst; [done|].
  apply bool_decide_eq_false in Hst.
  apply session_refresh_run. cbn [rows].
  rewrite filter_app, filter_cons_True, filter_nil by done.
  assert (filter (λ r, User.id r = User.id user) (rows s) = []) as ->;
    [|done].
  apply (filter_nil_not_taken User.id). intros (r & Hr & Hid).
  apply Hst, Exists_exists. exists r. split; [done|by left].
Qed.

Lemma create_run defaults data s :
  UserService.create hash_password defaults data s =
  let email := UserCreate.email data in
  let user :=
    User.new defaults (lower email)
      (UserCreate.first_name data) (UserCreate.last_name data)
      (UserCreate.phone data) (UserCreate.role data)
      (hash_password (UserCreate.password data)) in
  let s1 := logged s (CallExistsByEmail email) in
  let inserted (s2 : Session) :=
    if bool_decide (store_refuses user (rows s)) then
      (Raise IntegrityError, logged s2 (CallCreate user))
    else
      (Return user,
       mkSession (rows s ++ [user]) (calls s2 ++ [CallCreate user])) in
  if bool_decide (email_taken email (rows s)) then
    (Raise (UserAlreadyExistsError
              ("User with email " +:+ email +:+ " already exists")), s1)
  else
    match UserCreate.phone data with
    | Some phone =>
        if truthy phone then
          if bool_decide (phone_taken phone (rows s)) then
            (Raise (UserAlreadyExistsError
                      ("User with phone " +:+ phone +:+ " already exists")),
             logged s1 (CallExistsByPhone phone))
          else inserted (logged s1 (CallExistsByPhone phone))
        else inserted s1
    | None => inserted s1
    end.
Proof.
  destruct data as [email first_name last_name phone role password].
  unfold UserService.create, mbind, M_bind.
  cbn [UserCreate.email UserCreate.phone UserCreate.first_name
       UserCreate.last_name UserCreate.role UserCreate.password].
  rewrite repo_exists_by_email_run.
  destruct (bool_decide (email_taken _ (rows s))); [reflexivity|].
  destruct phone as [phone|];
    [destruct (truthy phone);
       [rewrite repo_exists_by_phone_run; cbn [rows logged];
        destruct (bool_decide (phone_taken phone (rows s)));
          [reflexivity|]|]|];
    cbv beta iota; unfold mret, M_ret; cbv beta iota;
    rewrite repo_create_run; reflexivity.
Qed.

(** What a successful [create] did. *)
Lemma create_returned defaults data s user s' :
  UserService.create hash_password defaults data s = (Return user, s') →
  user = User.new defaults (lower (UserCreate.email data))
           (UserCreate.first_name data) (UserCreate.last_name data)
           (UserCreate.phone data) (UserCreate.role data)
           (hash_password (UserCreate.password data))
  ∧ rows s' = rows s ++ [user]
  ∧ ¬ email_taken (UserCreate.email data) (rows s)
  ∧ (∀ phone, UserCreate.phone data = Some phone → phone ≠ "" →
              ¬ phone_taken phone (rows s))
  ∧ ¬ store_refuses user (rows s).
Proof.
  rewrite create_run; cbv zeta.
  destruct (bool_decide (email_taken _ (rows s))) eqn:Ht; [done|].
  apply bool_decide_eq_false in Ht.
  destruct (bool_decide (store_refuses _ (rows s))) eqn:Hst.
  { destruct (UserCreate.phone data) as [phone|];
      [destruct (truthy phone);
         [destruct (bool_decide (phone_taken _ (rows s)))|]|]; done. }
  apply bool_decide_eq_false in Hst.
  destruct (UserCreate.phone data) as [phone|] eqn:Hp.
  - destruct (truthy phone) eqn:Htr.
    + destruct (bool_decide (phone_taken _ (rows s))) eqn:Hpt; [done|].
      apply bool_decide_eq_false in Hpt.
      intros [= <- <-]. split_and!; try done.
      by intros ? [= <-].
    + intros [= <- <-]. split_and!; try done.
      intros ? [= <-] Hne%truthy_true. congruence.
  - intros [= <- <-]. split_and!; done.
Qed.

(** [create] returns when the identifier, the email and the phone are
    new. *)
Lemma create_accepted defaults data s :
  User.default_id defaults ∉ User.id <$> rows s →
  ¬ email_taken (UserCreate.email data) (rows s) →
  (∀ phone, UserCreate.phone data = Some phone →
            ¬ phone_taken phone (rows s)) →
  let user :=
    User.new defaults (lower (UserCreate.email data))
      (UserCreate.first_name data) (UserCreate.last_name data)
      (UserCreate.phone data) (UserCreate.role data)
      (hash_password (UserCreate.password data)) in
  ∃ s', UserService.create hash_password defaults data s = (Return user, s')
        ∧ rows s' = rows s ++ [user].
Proof.
  intros Hid Hemail Hphone user. rewrite create_run; cbv zeta.
  fold user. rewrite (store_accepts user); [|done| |].
  - rewrite (bool_decide_eq_false_2 _ Hemail).
    destruct (UserCreate.phone data) as [phone|] eqn:Hp;
      [destruct (truthy phone);
         [rewrite (bool_decide_eq_false_2 _ (Hphone phone eq_refl))|]|];
      eexists; split; reflexivity.
  - intros r Hr Heq. apply Hemail, Exists_exists. by exists r.
  - intros r phone Hr Hp Heq. apply (Hphone phone Hp), Exists_exists.
    by exists r.
Qed.

(** The two addresses of the scenario lower to the same text. *)
Lemma lower_alice :
  lower "Alice@Example.com" = "alice@example.com"
  ∧ lower "alice@example.com" = "alice@example.com".
Proof. split; by rewrite lower_ascii_text. Qed.

(** C2.  A creation input whose email matches the email of a stored user
    up to case is refused with [UserAlreadyExistsError] and the table is
    left as it was.  The scenario: a creation with the email
    [Alice@Example.com] returns when the identifier, the email and the
    phone are new, as in the empty table; once it has returned,
    [exists_by_email "alice@example.com"] is true and every creation with
    the email [alice@example.com] is refused. *)
Theorem create_duplicate_email :
  (∀ defaults data s u,
     emails_normalized (rows s) → u ∈ rows s →
     lower (User.email u) = lower (UserCreate.email data) →
     let run := UserService.create hash_password defaults data s in
     run.1 = Raise (UserAlreadyExistsError
                      ("User with email " +:+ UserCreate.email data
                       +:+ " already exists"))
     ∧ rows run.2 = rows s)
  ∧ (∀ defaults_a data_a s,
       UserCreate.email data_a = "Alice@Example.com" →
       User.default_id defaults_a ∉ User.id <$> rows s →
       ¬ email_taken "Alice@Example.com" (rows s) →
       (∀ phone, UserCreate.phone data_a = Some phone →
                 ¬ phone_taken phone (rows s)) →
       ∃ user_a s_a,
         UserService.create hash_password defaults_a data_a s
         = (Return user_a, s_a)
         ∧ User.email user_a = "alice@example.com")
  ∧ (∀ defaults_a data_a s user_a s_a,
       UserCreate.email data_a = "Alice@Example.com" →
       UserService.create hash_password defaults_a data_a s
       = (Return user_a, s_a) →
       (UserRepository.exists_by_email "alice@example.com" s_a).1
       = Return true
       ∧ ∀ defaults_b data_b,
           UserCreate.email data_b = "alice@example.com" →
           let run := UserService.create hash_password defaults_b data_b s_a in
           run.1 = Raise (UserAlreadyExistsError
                            "User with email alice@example.com already exists")
           ∧ rows run.2 = rows s_a).
Proof.
  destruct lower_alice as [HA Ha].
  assert (∀ defaults data s,
    email_taken (UserCreate.email data) (rows s) →
    UserService.create hash_password defaults data s
    = (Raise (UserAlreadyExistsError
                ("User with email " +:+ UserCreate.email data
                 +:+ " already exists")),
       logged s (CallExistsByEmail (UserCreate.email data)))) as Htaken.
  { intros defaults data s Ht. rewrite create_run; simpl.
    by rewrite bool_decide_eq_true_2. }
  split_and!.
  - intros defaults data s u Hlow Hin Heq run0. subst run0.
    rewrite Htaken by (by apply (insensitive_match_taken _ u)). done.
  - intros defaults_a data_a s Hmail Hid Hfree Hphone.
    rewrite <- Hmail in Hfree.
    destruct (create_accepted defaults_a data_a s Hid Hfree Hphone)
      as (s_a & Hrun & _).
    eexists _, s_a. split; [exact Hrun|]. simpl. by rewrite Hmail.
  - intros defaults_a data_a s user_a s_a Hmail Hrun.
    assert (email_taken "alice@example.com" (rows s_a)) as Ht.
    { destruct (create_returned _ _ _ _ _ Hrun) as (Huser & Hrows & _).
      apply Exists_exists. exists user_a. split.
      - rewrite Hrows. apply elem_of_app. right. left.
      - rewrite Huser. simpl. by rewrite Hmail, Ha. }
    split.
    + rewrite repo_exists_by_email_run; simpl.
      by rewrite bool_decide_eq_true_2.
    + intros defaults_b data_b Hb run0. subst run0.
      rewrite Htaken by (by rewrite Hb). by rewrite Hb.
Qed.

(** C7.  With an email that no stored user has (up to case) and a phone
    that no stored user has, [create] succeeds: it returns the new entity,
    its email is the lowercased input email, and the entity is the row
    added to the table.  The identifier that the new row is given is one
    that no stored user has. *)
Theorem create_fresh_succeeds defaults data s :
  User.default_id defaults ∉ User.id <$> rows s →
  (∀ u, u ∈ rows s → lower (User.email u) ≠ lower (UserCreate.email data)) →
  (∀ u phone, u ∈ rows s → UserCreate.phone data = Some phone →
              User.phone u ≠ Some phone) →
  ∃ user s',
    UserService.create hash_password defaults data s = (Return user, s')
    ∧ User.email user = lower (UserCreate.email data)
    ∧ rows s' = rows s ++ [user].
Proof.
  intros Hid Hemail Hphone.
  destruct (create_accepted defaults data s Hid) as (s' & Hrun & Hrows).
  - intros (u & Hin & Heq)%Exists_exists. apply (Hemail u Hin).
    by rewrite Heq, lower_idemp.
  - intros phone Hp (u & Hin & Heq)%Exists_exists. by apply (Hphone u phone).
  - eexists _, s'. split_and!; [exact Hrun|done|exact Hrows].
Qed.

(** C8.  [create] asks the repository about the email before anything
    else, and about the phone only afterwards.  When the email is taken
    the error is the one about the email, whatever the phone: no phone
    check is made and nothing is aggregated. *)
Theorem create_checks_email_first defaults data s :
  let run := UserService.create hash_password defaults data s in
  (∃ rest, calls run.2
           = calls s ++ CallExistsByEmail (UserCreate.email data) :: rest
           ∧ ∀ email, CallExistsByEmail email ∉ rest)
  ∧ (∀ u, emails_normalized (rows s) → u ∈ rows s →
       lower (User.email u) = lower (UserCreate.email data) →
       run.1 = Raise (UserAlreadyExistsError
                        ("User with email " +:+ UserCreate.email data
                         +:+ " already exists"))
       ∧ calls run.2 = calls s ++ [CallExistsByEmail (UserCreate.email data)]
       ∧ rows run.2 = rows s).
Proof.
  intros run0. subst run0. rewrite create_run; simpl. split.
  - destruct (bool_decide (email_taken _ (rows s))); simpl.
    { exists []. split; [done|]. intros e. apply not_elem_of_nil. }
    destruct (UserCreate.phone data) as [phone|];
      [destruct (truthy phone);
         [destruct (bool_decide (phone_taken _ (rows s)))|]|];
      try destruct (bool_decide (store_refuses _ (rows s))); simpl;
      rewrite <- ?app_assoc; simpl;
      eexists; (split; [reflexivity|]); intros e He;
      repeat (apply elem_of_cons in He as [He|He]; [done|]);
      by apply elem_of_nil in He.
  - intros u Hlow Hin Heq.
    rewrite bool_decide_eq_true_2
      by (by apply (insensitive_match_taken _ u)).
    done.
Qed.

(** ** Password change *)

(** An assignment to an entity that is the row of its identifier. *)
Lemma setattr_run f user s :
  NoDup (User.id <$> rows s) → user ∈ rows s →
  setattr f user s
  = (Return (written s f user),
     mkSession (store_row (written s f user) (rows s)) (calls s)).
Proof.
  intros Hnd Hin. unfold setattr, written.
  destruct (decide (f user = user)); [|done].
  rewrite store_row_same by done. by destruct s.
Qed.

Lemma setattr_changed f user s :
  f user ≠ user →
  setattr f user s
  = (Return (touch s (f user)),
     mkSession (store_row (touch s (f user)) (rows s)) (calls s)).
Proof. intros Hne. unfold setattr. by rewrite decide_False. Qed.

Lemma stamped_touch s u : stamped u (touch s u).
Proof. done. Qed.

Lemma written_stamped s f u : stamped (f u) (written s f u).
Proof.
  unfold written. destruct (decide (f u = u)) as [->|]; [|done].
  by destruct u.
Qed.

Lemma update_password_run s u current new :
  table_ok (rows s) → u ∈ rows s →
  UserService.update_password hash_password verify_password
    (User.id u) current new s =
  if verify_password current (User.password_hash u) then
    let user :=
      written (logged s (CallGetById (User.id u)))
        (User.set_password_hash (hash_password new)) u in
    (Return user,
     mkSession (store_row user (rows s))
       (calls s ++ [CallGetById (User.id u); CallUpdate user]))
  else
    (Raise (InvalidPasswordError "Current password is incorrect"),
     logged s (CallGetById (User.id u))).
Proof.
  intros Hok Hin. unfold UserService.update_password, mbind, M_bind.
  rewrite stored_get_by_id by done.
  destruct (verify_password current (User.password_hash u)); simpl;
    [|reflexivity].
  rewrite setattr_run; [|by destruct Hok|done].
  rewrite repo_update_run.
  - cbv zeta. unfold logged; simpl. by rewrite <- app_assoc.
  - apply (refreshed_row _ u); [by destruct Hok|done|].
    unfold written. by destruct (decide _).
Qed.

(** The entity after the assignment of a password hash. *)
Lemma written_password_hash s h u :
  let user := written s (User.set_password_hash h) u in
  User.password_hash user = h
  ∧ User.id user = User.id u
  ∧ User.email user = User.email u
  ∧ User.first_name user = User.first_name u
  ∧ User.last_name user = User.last_name u
  ∧ User.phone user = User.phone u
  ∧ User.role user = User.role u
  ∧ User.is_active user = User.is_active u
  ∧ User.is_verified user = User.is_verified u
  ∧ User.is_two_factor_enabled user = User.is_two_factor_enabled u
  ∧ User.created_at user = User.created_at u.
Proof.
  unfold written. destruct (decide _) as [Heq|Hne]; simpl; [|done].
  split_and!; try done. by rewrite <- Heq.
Qed.

(** C4.  For a stored user and a current password that does not verify
    against the stored hash, [update_password] raises
    [InvalidPasswordError] and the table is left as it was: the row of the
    user, its hash included, is the same. *)
Theorem update_password_wrong_current s u current new :
  table_ok (rows s) → u ∈ rows s →
  verify_password current (User.password_hash u) = false →
  let run :=
    UserService.update_password hash_password verify_password
      (User.id u) current new s in
  run.1 = Raise (InvalidPasswordError "Current password is incorrect")
  ∧ rows run.2 = rows s
  ∧ filter (λ r, User.id r = User.id u) (rows run.2) = [u].
Proof.
  intros Hok Hin Hv run0. subst run0.
  rewrite update_password_run, Hv by done. simpl.
  split_and!; [done|done|].
  destruct Hok as (Hid & _). by apply (filter_unique_key User.id).
Qed.

(** C5.  For an active stored user, once [update_password] has succeeded
    with a new password different from the current one,
    [verify_credentials] with the email of the user succeeds with the new
    password and raises [InvalidPasswordError] with the old one.  The
    password primitive is assumed to verify a hash exactly against the
    password it was made from. *)
Theorem update_password_then_verify s u current new user' s' :
  password_primitive_exact hash_password verify_password →
  table_ok (rows s) → u ∈ rows s →
  User.is_active u = true →
  current ≠ new →
  UserService.update_password hash_password verify_password
    (User.id u) current new s = (Return user', s') →
  (UserService.verify_credentials verify_password (User.email u) new s').1
  = Return user'
  ∧ (UserService.verify_credentials verify_password
       (User.email u) current s').1
    = Raise (InvalidPasswordError "Invalid email or password").
Proof.
  intros Hprim Hok Hin Hact Hne Hrun.
  rewrite update_password_run in Hrun by done.
  destruct (verify_password current (User.password_hash u)); [|done].
  cbv zeta in Hrun. injection Hrun as <- <-.
  set (user := written _ _ u).
  destruct (written_password_hash (logged s (CallGetById (User.id u)))
              (hash_password new) u)
    as (Hhash & Hid & Hemail & _ & _ & _ & _ & Hactive & _).
  fold user in Hhash, Hid, Hemail, Hactive.
  assert (filter (λ r, User.email r = lower (User.email u))
            (store_row user (rows s)) = [user]) as Hfound.
  { rewrite <- Hemail.
    apply (stored_email_lookup user
             (mkSession (store_row user (rows s)) [])); simpl.
    - by apply (store_row_table_ok u).
    - by apply (elem_of_store_row u). }
  unfold UserService.verify_credentials, mbind, M_bind.
  rewrite !repo_get_by_email_run; simpl. rewrite Hfound; simpl.
  rewrite Hhash, Hactive.
  assert (verify_password new (hash_password new) = true) as ->
    by (by apply Hprim).
  assert (verify_password current (hash_password new) = false) as ->.
  { apply not_true_is_false. intros Hv. by apply Hprim in Hv. }
  by rewrite Hact.
Qed.

End with_password_primitive.

(** ** Listing *)

Lemma where_is_active_matches is_active table :
  where_is_active is_active table = filter (matches_active is_active) table.
Proof.
  destruct is_active as [b|]; simpl.
  - apply list_filter_iff. intros u. unfold matches_active. split.
    + by intros Hb b' [= <-].
    + intros H. by apply H.
  - induction table as [|u table IH]; [done|].
    rewrite filter_cons_True by (by intros b [=]). by f_equal.
Qed.

(** C3.  The users that match the active filter, ordered by creation time
    with the most recent first, form one sequence [ordered] that does not
    depend on the page.  For every [page ≥ 1] and every page size (a count,
    not negative) [list] returns the number of matching users as the total,
    whatever the page and the page size, and as items the slice of
    [ordered] that starts at offset [(page - 1) * page_size] and has at
    most [page_size] elements.  For [page = 2] and [page_size = 10] the
    items are the 11th to the 20th of [ordered]. *)
Theorem list_page (s : Session) (is_active : option bool) :
  ∃ ordered,
    ordered ≡ₚ filter (matches_active is_active) (rows s)
    ∧ StronglySorted created_desc ordered
    ∧ (∀ page page_size : Z, (1 ≤ page)%Z → (0 ≤ page_size)%Z →
         ∃ items,
           UserService.list page page_size is_active s
           = (Return (items,
                      length (filter (matches_active is_active) (rows s))),
              logged s (CallList ((page - 1) * page_size) page_size is_active))
           ∧ items = take (Z.to_nat page_size)
                       (drop (Z.to_nat ((page - 1) * page_size)) ordered)
           ∧ (Z.of_nat (length items) ≤ page_size)%Z)
    ∧ (∃ items total,
         (UserService.list 2 10 is_active s).1 = Return (items, total)
         ∧ ∀ i, (i < 10)%nat → items !! i = ordered !! (10 + i)%nat).
Proof.
  exists (order_by_created_at_desc (where_is_active is_active (rows s))).
  split_and!.
  - unfold order_by_created_at_desc.
    by rewrite merge_sort_Permutation, where_is_active_matches.
  - apply StronglySorted_merge_sort; apply _.
  - intros page page_size Hpage Hsize. eexists. split_and!.
    + unfold UserService.list, UserRepository.list; run.
      rewrite where_is_active_matches. reflexivity.
    + unfold offset_limit. by rewrite where_is_active_matches.
    + unfold offset_limit. rewrite length_take. lia.
  - eexists _, _. split; [reflexivity|].
    intros i Hi. unfold offset_limit.
    rewrite lookup_take_lt by (simpl; lia).
    by rewrite lookup_drop.
Qed.

(** ** Update *)

Lemma patched_refl table patch u : patched table patch u u.
Proof. constructor; auto. Qed.

Lemma checks_justified_snoc patch u new c :
  checks_justified patch u new →
  (∀ email, c = CallExistsByEmail email →
     UserUpdate.email patch = Some email
     ∧ email ≠ "" ∧ lower email ≠ User.email u) →
  (∀ phone, c = CallExistsByPhone phone →
     UserUpdate.phone patch = Some phone
     ∧ phone ≠ "" ∧ Some phone ≠ User.phone u) →
  checks_justified patch u (new ++ [c]).
Proof.
  intros [He Hp] Hce Hcp. split.
  - intros email [Hin|Hin%list_elem_of_singleton]%elem_of_app; auto.
  - intros phone [Hin|Hin%list_elem_of_singleton]%elem_of_app; auto.
Qed.

Lemma update_inv_logged s patch u user s' c :
  update_inv s patch u user s' →
  (∀ email, c = CallExistsByEmail email →
     UserUpdate.email patch = Some email
     ∧ email ≠ "" ∧ lower email ≠ User.email u) →
  (∀ phone, c = CallExistsByPhone phone →
     UserUpdate.phone patch = Some phone
     ∧ phone ≠ "" ∧ Some phone ≠ User.phone u) →
  update_inv s patch u user (logged s' c).
Proof.
  intros (Hrows & Hp & new & Hcalls & Hj) Hce Hcp.
  split_and!; [done|done|]. exists (new ++ [c]). simpl. split.
  - by rewrite Hcalls, app_assoc.
  - by apply checks_justified_snoc.
Qed.

(** An assignment to the entity keeps the state of the run, provided the
    new entity is still [patched]. *)
Lemma patched_touch table patch u x s :
  patched table patch u x → patched table patch u (touch s x).
Proof. intros []. by constructor. Qed.

Lemma update_inv_setattr s patch u user s' f :
  update_inv s patch u user s' →
  patched (rows s) patch u (f user) →
  step_post s patch u user (setattr f user s').1 (setattr f user s').2.
Proof.
  intros Hinv Hp'. unfold setattr. destruct (decide (f user = user)); [done|].
  destruct Hinv as (Hrows & Hp & Hnew).
  split_and!; [|by apply patched_touch|done]. simpl.
  rewrite Hrows. apply store_row_twice.
  rewrite (patched_id _ _ _ _ Hp). symmetry.
  apply (patched_id (rows s) patch), patched_touch, Hp'.
Qed.

Lemma step_assign {V} (o : option V) (f : V → User.t → User.t)
    s patch u user s' :
  update_inv s patch u user s' →
  (∀ v, o = Some v → patched (rows s) patch u (f v user)) →
  post (match o with
        | Some v => setattr (f v) user
        | None => mret user
        end) s' (step_post s patch u user).
Proof.
  intros Hinv Hf. unfold post. destruct o as [v|].
  - apply (update_inv_setattr _ _ _ _ _ (f v)); auto.
  - done.
Qed.

Lemma update_inv_init s patch u :
  NoDup (User.id <$> rows s) → u ∈ rows s →
  update_inv s patch u u (logged s (CallGetById (User.id u))).
Proof.
  intros Hnd Hin. split_and!.
  - simpl. by rewrite store_row_same.
  - apply patched_refl.
  - exists [CallGetById (User.id u)]. split; [done|].
    split; intros x Hx%list_elem_of_singleton; done.
Qed.

Lemma taken_store_row {B} `{!EqDecision B} (f : User.t → B) x u user table :
  NoDup (User.id <$> table) → u ∈ table →
  User.id user = User.id u → f user = f u →
  Exists (λ r, f r = x) (store_row user table)
  ↔ Exists (λ r, f r = x) table.
Proof.
  intros Hnd Hin Hid Hf.
  assert (∀ l, Exists (λ r, f r = x) l ↔ x ∈ f <$> l) as Hmem.
  { intros l. rewrite Exists_exists, list_elem_of_fmap.
    split; [intros (r & ? & <-)|intros (r & -> & ?)]; by exists r. }
  by rewrite !Hmem, (store_row_fmap f u user).
Qed.

(** The step "check email uniqueness if changing", on the loaded entity. *)
Lemma step_email s patch u s' :
  NoDup (User.id <$> rows s) → u ∈ rows s →
  update_inv s patch u u s' →
  post (match UserUpdate.email patch with
        | Some email =>
            if truthy email && bool_decide (lower email ≠ User.email u)
            then
              taken ← UserRepository.exists_by_email email;
              if taken : bool then
                raise (UserAlreadyExistsError
                         ("User with email " +:+ email
                          +:+ " already exists"))
              else setattr (User.set_email (lower email)) u
            else mret u
        | None => mret u
        end) s' (step_post s patch u u).
Proof.
  intros Hnd Hin Hinv. unfold post.
  destruct (UserUpdate.email patch) as [email|] eqn:He; [|done].
  destruct (truthy email && bool_decide _) eqn:Hc; [|done].
  apply andb_true_iff in Hc as [Ht%truthy_true Hd%bool_decide_eq_true].
  assert (rows s' = rows s) as Hrows.
  { destruct Hinv as (-> & _). by apply store_row_same. }
  assert (update_inv s patch u u (logged s' (CallExistsByEmail email)))
    as Hinv'.
  { apply update_inv_logged; [done| |done]. by intros ? [= <-]. }
  unfold mbind, M_bind. rewrite repo_exists_by_email_run. rewrite Hrows.
  destruct (bool_decide (email_taken email (rows s))) eqn:Htaken;
    cbn [fst snd].
  - apply bool_decide_eq_true in Htaken. split; [done|].
    left. by exists email.
  - apply bool_decide_eq_false in Htaken.
    apply (update_inv_setattr _ _ _ _ _ (User.set_email (lower email)) Hinv').
    constructor; simpl; auto. right. by exists email.
Qed.

(** The step "check phone uniqueness if changing". *)
Lemma step_phone s patch u user s' :
  NoDup (User.id <$> rows s) → u ∈ rows s →
  update_inv s patch u user s' →
  post (match UserUpdate.phone patch with
        | Some phone =>
            if truthy phone && bool_decide (Some phone ≠ User.phone user)
            then
              taken ← UserRepository.exists_by_phone phone;
              if taken : bool then
                raise (UserAlreadyExistsError
                         ("User with phone " +:+ phone
                          +:+ " already exists"))
              else setattr (User.set_phone (Some phone)) user
            else mret user
        | None => mret user
        end) s' (step_post s patch u user).
Proof.
  intros Hnd Hin Hinv. unfold post.
  destruct (UserUpdate.phone patch) as [phone|] eqn:He; [|done].
  destruct (truthy phone && bool_decide _) eqn:Hc; [|done].
  apply andb_true_iff in Hc as [Ht%truthy_true Hd%bool_decide_eq_true].
  pose proof Hinv as (Hrows & Hp & _).
  assert (User.phone user = User.phone u) as Hsame.
  { destruct (patched_phone _ _ _ _ Hp)
      as [?|(phone' & Hp' & _ & _ & _ & Hset)]; [done|].
    exfalso. apply Hd. congruence. }
  assert (update_inv s patch u user (logged s' (CallExistsByPhone phone)))
    as Hinv'.
  { apply update_inv_logged; [done|done|].
    intros ? [= <-]. split_and!; [done|done|congruence]. }
  unfold mbind, M_bind. rewrite repo_exists_by_phone_run.
  assert (phone_taken phone (rows s') ↔ phone_taken phone (rows s)) as Hiff.
  { rewrite Hrows. apply (taken_store_row User.phone _ u); try done.
    apply (patched_id _ _ _ _ Hp). }
  rewrite (bool_decide_ext _ _ Hiff).
  destruct (bool_decide (phone_taken phone (rows s))) eqn:Htaken;
    cbn [fst snd].
  - apply bool_decide_eq_true in Htaken. split; [done|].
    right. exists phone. split_and!; try done. congruence.
  - apply bool_decide_eq_false in Htaken.
    apply (update_inv_setattr _ _ _ _ _
             (User.set_phone (Some phone)) Hinv').
    destruct Hp. constructor; simpl; auto.
    right. exists phone. split_and!; try done. congruence.
Qed.

(** [update] on a stored user ends in [update_post]. *)
Lemma update_satisfies_post s u patch :
  NoDup (User.id <$> rows s) → u ∈ rows s →
  post (UserService.update (User.id u) patch) s (update_post s patch u).
Proof.
  intros Hnd Hin.
  assert (∀ user e s',
    update_inv s patch u user s' ∧ update_refusal (rows s) patch u e →
    update_post s patch u (Raise e) s') as Hraise.
  { intros user e s' [Hinv Href]. by exists user. }
  unfold UserService.update. apply post_bind. unfold post at 1.
  rewrite (service_get_by_id_found _ u)
    by (by apply (filter_unique_key User.id)).
  simpl.
  apply post_bind.
  eapply post_mono; [by apply step_email, update_inv_init|].
  intros [user1|e] s1 H1; simpl in H1; [|by eapply Hraise].
  apply post_bind. eapply post_mono; [by apply step_phone|].
  intros [user2|e] s2 H2; simpl in H2; [|by eapply Hraise].
  apply post_bind. eapply post_mono.
  { apply step_assign; [exact H2|]. intros v Hv.
    destruct H2 as (_ & [] & _). constructor; simpl; auto. }
  intros [user3|e] s3 H3; simpl in H3; [|by eapply Hraise].
  apply post_bind. eapply post_mono.
  { apply step_assign; [exact H3|]. intros v Hv.
    destruct H3 as (_ & [] & _). constructor; simpl; auto. }
  intros [user4|e] s4 H4; simpl in H4; [|by eapply Hraise].
  apply post_bind. eapply post_mono.
  { apply step_assign; [exact H4|]. intros v Hv.
    destruct H4 as (_ & [] & _). constructor; simpl; auto. }
  intros [user5|e] s5 H5; simpl in H5; [|by eapply Hraise].
  apply post_bind. eapply post_mono.
  { apply step_assign; [exact H5|]. intros v Hv.
    destruct H5 as (_ & [] & _). constructor; simpl; auto. }
  intros [user6|e] s6 H6; simpl in H6; [|by eapply Hraise].
  unfold post. rewrite repo_update_run.
  - exists user6. split; [|done].
    by apply (update_inv_logged _ _ _ _ _ (CallUpdate user6)).
  - destruct H6 as (-> & Hp & _).
    apply (refreshed_row _ u); [done|done|apply (patched_id _ _ _ _ Hp)].
Qed.

(** The facts about a run of [update] on a stored user, unpacked. *)
Lemma update_outcome s u patch :
  table_ok (rows s) → u ∈ rows s →
  ∃ user new,
    rows (UserService.update (User.id u) patch s).2
    = store_row user (rows s)
    ∧ filter (λ r, User.id r = User.id u)
        (rows (UserService.update (User.id u) patch s).2) = [user]
    ∧ patched (rows s) patch u user
    ∧ calls (UserService.update (User.id u) patch s).2 = calls s ++ new
    ∧ checks_justified patch u new
    ∧ match (UserService.update (User.id u) patch s).1 with
      | Return r => r = user
      | Raise e => update_refusal (rows s) patch u e
      end.
Proof.
  intros (Hnd & _) Hin.
  destruct (update_satisfies_post s u patch Hnd Hin)
    as (user & (Hrows & Hp & new & Hcalls & Hj) & Hout).
  exists user, new. split_and!; try done.
  rewrite Hrows. apply stored_row_after; try done.
  apply (patched_id _ _ _ _ Hp).
Qed.

(** C9.  For a stored user, [update] with the empty patch succeeds and
    returns the entity as it was, and the table is the same.  For every
    patch, whatever the outcome, the row of the user after the run has the
    prior value in every field that the patch leaves out, and in the
    identifier, the password hash, the verification flags and the creation
    time, which are not part of a patch; when [update] returns, it returns
    that row. *)
Theorem update_partial s u patch :
  table_ok (rows s) → u ∈ rows s →
  UserService.update (User.id u) UserUpdate.empty s
  = (Return u,
     mkSession (rows s) (calls s ++ [CallGetById (User.id u); CallUpdate u]))
  ∧ ∃ user,
      filter (λ r, User.id r = User.id u)
        (rows (UserService.update (User.id u) patch s).2) = [user]
      ∧ (∀ r, (UserService.update (User.id u) patch s).1 = Return r →
              r = user)
      ∧ (UserUpdate.email patch = None → User.email user = User.email u)
      ∧ (UserUpdate.first_name patch = None →
           User.first_name user = User.first_name u)
      ∧ (UserUpdate.last_name patch = None →
           User.last_name user = User.last_name u)
      ∧ (UserUpdate.phone patch = None → User.phone user = User.phone u)
      ∧ (UserUpdate.role patch = None → User.role user = User.role u)
      ∧ (UserUpdate.is_active patch = None →
           User.is_active user = User.is_active u)
      ∧ User.id user = User.id u
      ∧ User.password_hash user = User.password_hash u
      ∧ User.is_verified user = User.is_verified u
      ∧ User.is_two_factor_enabled user = User.is_two_factor_enabled u
      ∧ User.created_at user = User.created_at u.
Proof.
  intros Hok Hin. split.
  - unfold UserService.update, mbind, M_bind.
    rewrite stored_get_by_id by done. unfold UserUpdate.empty.
    cbn [UserUpdate.email UserUpdate.phone UserUpdate.first_name
         UserUpdate.last_name UserUpdate.role UserUpdate.is_active].
    unfold mret, M_ret. cbv beta iota. rewrite repo_update_run.
    + unfold logged; simpl. by rewrite <- app_assoc.
    + destruct Hok as (Hnd & _). by apply (filter_unique_key User.id).
  - destruct (update_outcome s u patch Hok Hin)
      as (user & new & _ & Hrow & Hp & _ & _ & Hout).
    exists user.
    destruct Hp as [Hid Hhash Hver Htwo Hcre Hem Hph Hfn Hln Hro Hac].
    split_and!; try done.
    + intros r Hr. by rewrite Hr in Hout.
    + intros Hnone. destruct Hem as [?|(e & He & _)]; congruence.
    + intros Hnone. destruct Hfn; congruence.
    + intros Hnone. destruct Hln; congruence.
    + intros Hnone. destruct Hph as [?|(e & He & _)]; congruence.
    + intros Hnone. destruct Hro; congruence.
    + intros Hnone. destruct Hac; congruence.
Qed.

(** C10.  [update] tests the email and the phone of the patch by truth
    value.  With an email that is [None] or the empty string the stored
    email stays and no email uniqueness check is made; the same holds for
    the phone.  In every case a phone that was set is still set after
    [update]: it cannot be cleared. *)
Theorem update_truthiness s u patch :
  table_ok (rows s) → u ∈ rows s →
  ∃ user new,
    filter (λ r, User.id r = User.id u)
      (rows (UserService.update (User.id u) patch s).2) = [user]
    ∧ (∀ r, (UserService.update (User.id u) patch s).1 = Return r →
            r = user)
    ∧ calls (UserService.update (User.id u) patch s).2 = calls s ++ new
    ∧ (UserUpdate.email patch = None ∨ UserUpdate.email patch = Some "" →
         User.email user = User.email u
         ∧ ∀ email, CallExistsByEmail email ∉ new)
    ∧ (UserUpdate.phone patch = None ∨ UserUpdate.phone patch = Some "" →
         User.phone user = User.phone u
         ∧ ∀ phone, CallExistsByPhone phone ∉ new)
    ∧ (User.phone u ≠ None → User.phone user ≠ None).
Proof.
  intros Hok Hin.
  destruct (update_outcome s u patch Hok Hin)
    as (user & new & _ & Hrow & Hp & Hcalls & [Hje Hjp] & Hout).
  exists user, new.
  pose proof (patched_email _ _ _ _ Hp) as Hem.
  pose proof (patched_phone _ _ _ _ Hp) as Hph.
  split_and!; try done.
  - intros r Hr. by rewrite Hr in Hout.
  - intros Hfalsy. split.
    + destruct Hem as [?|(e & He & Hne & _)]; [done|].
      destruct Hfalsy; congruence.
    + intros email (He & Hne & _)%Hje. destruct Hfalsy; congruence.
  - intros Hfalsy. split.
    + destruct Hph as [?|(p & He & Hne & _)]; [done|].
      destruct Hfalsy; congruence.
    + intros phone (He & Hne & _)%Hjp. destruct Hfalsy; congruence.
  - intros Hset.
    destruct Hph as [?|(p & _ & _ & _ & _ & ?)]; congruence.
Qed.

(** C6.  For a stored user and a patch with an email:
    - when the lowercased email is the stored email of a different user,
      [update] raises [UserAlreadyExistsError] for the email, and the
      table, the row of the target included, is left as it was;
    - when the lowercased email is the stored email of the target itself,
      no email uniqueness check is made and the stored email stays; with
      a patch that brings no new phone (none, the empty one or the stored
      one) [update] then succeeds and no uniqueness check is made at
      all. *)
Theorem update_email_uniqueness s u patch email :
  table_ok (rows s) → u ∈ rows s →
  UserUpdate.email patch = Some email →
  (∀ v, v ∈ rows s → User.id v ≠ User.id u →
        lower email = User.email v →
        (UserService.update (User.id u) patch s).1
        = Raise (UserAlreadyExistsError
                   ("User with email " +:+ email +:+ " already exists"))
        ∧ rows (UserService.update (User.id u) patch s).2 = rows s
        ∧ filter (λ r, User.id r = User.id u)
            (rows (UserService.update (User.id u) patch s).2) = [u])
  ∧ (lower email = User.email u →
       ∃ user new,
         filter (λ r, User.id r = User.id u)
           (rows (UserService.update (User.id u) patch s).2) = [user]
         ∧ User.email user = User.email u
         ∧ calls (UserService.update (User.id u) patch s).2 = calls s ++ new
         ∧ (∀ e, CallExistsByEmail e ∉ new)
         ∧ ((∀ phone, UserUpdate.phone patch = Some phone →
                      phone = "" ∨ Some phone = User.phone u) →
              (UserService.update (User.id u) patch s).1 = Return user
              ∧ ∀ p, CallExistsByPhone p ∉ new)).
Proof.
  intros Hok Hin He. split.
  - intros v Hv Hid Hlow.
    pose proof Hok as (Hnd & Hem & _ & Hne).
    assert (email ≠ "") as Hemail.
    { intros Hblank%lower_empty_iff. rewrite Forall_forall in Hne.
      apply (Hne v Hv). congruence. }
    assert (lower email ≠ User.email u) as Hdiff.
    { rewrite Hlow. intros Heq. apply Hid. f_equal.
      by apply (unique_key_inj User.email (rows s)). }
    assert (email_taken email (rows s)) as Htaken.
    { apply Exists_exists. by exists v. }
    unfold UserService.update, mbind, M_bind.
    rewrite stored_get_by_id by done. cbv beta iota. rewrite He.
    apply truthy_true in Hemail. rewrite Hemail.
    rewrite (bool_decide_eq_true_2 _ Hdiff). cbv beta iota.
    change (true && true) with true. cbv beta iota.
    rewrite repo_exists_by_email_run.
    rewrite (bool_decide_eq_true_2 _ Htaken). simpl.
    split_and!; [done|done|]. by apply (filter_unique_key User.id).
  - intros Hown.
    destruct (update_outcome s u patch Hok Hin)
      as (user & new & _ & Hrow & Hp & Hcalls & [Hje Hjp] & Hout).
    exists user, new. split_and!; try done.
    + destruct (patched_email _ _ _ _ Hp) as [?|(e & He' & _ & Hd & _)];
        [done|]. congruence.
    + intros e (He' & _ & Hd)%Hje. congruence.
    + intros Hphone. split.
      * destruct (UserService.update (User.id u) patch s).1 as [r|e];
          [by subst|].
        exfalso. destruct Hout as [(e' & He' & _ & Hd & _)
                                  |(p & Hp' & Hne & Hd & _)].
        -- congruence.
        -- destruct (Hphone p Hp') as [?|?]; done.
      * intros p (Hp' & Hne & Hd)%Hjp.
        destruct (Hphone p Hp') as [?|?]; done.
Qed.

(** ** The invariants of the table are kept by the service *)

Lemma filter_key_cases {B} `{!EqDecision B} (f : User.t → B) x table :
  NoDup (f <$> table) →
  filter (λ r, f r = x) table = []
  ∨ ∃ u, u ∈ table ∧ f u = x ∧ filter (λ r, f r = x) table = [u].
Proof.
  intros Hnd. destruct (decide (Exists (λ r, f r = x) table)) as [He|He].
  - right. apply Exists_exists in He as (u & Hin & <-).
    exists u. split_and!; [done|done|]. by apply filter_unique_key.
  - left. apply filter_nil_not_taken. by rewrite <- Exists_exists.
Qed.

Lemma table_ok_nil : table_ok [].
Proof.
  unfold table_ok, emails_normalized. split_and!; constructor.
Qed.

Lemma table_ok_snoc table user :
  table_ok table →
  User.id user ∉ User.id <$> table →
  User.email user ∉ User.email <$> table →
  lower (User.email user) = User.email user →
  User.email user ≠ "" →
  table_ok (table ++ [user]).
Proof.
  intros (Hid & Hem & Hlow & Hne) Hfid Hfem Hl Hn.
  unfold table_ok, emails_normalized in *. rewrite !fmap_app; simpl.
  split_and!.
  - apply NoDup_app. split_and!; [done| |apply NoDup_singleton].
    intros x Hx ->%list_elem_of_singleton. done.
  - apply NoDup_app. split_and!; [done| |apply NoDup_singleton].
    intros x Hx ->%list_elem_of_singleton. done.
  - apply Forall_app. split; [done|]. by constructor.
  - apply Forall_app. split; [done|]. by constructor.
Qed.

Lemma table_ok_filter (P : User.t → Prop) `{!∀ r, Decision (P r)} table :
  table_ok table → table_ok (filter P table).
Proof.
  intros (Hid & Hem & Hlow & Hne). unfold table_ok, emails_normalized in *.
  split_and!.
  - eapply sublist_NoDup; [exact Hid|]. apply fmap_sublist, sublist_filter.
  - eapply sublist_NoDup; [exact Hem|]. apply fmap_sublist, sublist_filter.
  - apply Forall_forall. intros r [_ Hr]%list_elem_of_filter.
    revert r Hr. by apply Forall_forall.
  - apply Forall_forall. intros r [_ Hr]%list_elem_of_filter.
    revert r Hr. by apply Forall_forall.
Qed.

(** Replacing the row of [u] by an entity that [update] produced keeps the
    invariants: a new email passed the uniqueness check. *)
Lemma table_ok_patched table patch u user :
  table_ok table → u ∈ table →
  patched table patch u user →
  table_ok (store_row user table).
Proof.
  intros Hok Hin Hp.
  destruct (patched_email _ _ _ _ Hp)
    as [Hsame|(email & _ & Hne & _ & Hfree & Hset)].
  { apply (store_row_table_ok u); [done|done| |done].
    apply (patched_id _ _ _ _ Hp). }
  pose proof (patched_id _ _ _ _ Hp) as Hid.
  destruct Hok as (Hids & Hem & Hlow & Hnon).
  apply list_elem_of_split in Hin as (l1 & l2 & ->).
  assert (store_row user (l1 ++ u :: l2) = l1 ++ user :: l2) as ->.
  { rewrite fmap_app, fmap_cons in Hids.
    apply NoDup_app in Hids as (_ & Hl1 & Hl2%NoDup_cons).
    destruct Hl2 as [Hl2 _].
    unfold store_row. rewrite fmap_app, fmap_cons.
    rewrite decide_True by done. f_equal; [|f_equal].
    - rewrite <- (list_fmap_id l1) at 2. apply list_fmap_ext.
      intros i r Hr; simpl. case_decide as Hd; [|done]. exfalso.
      apply (Hl1 (User.id r)).
      + by apply list_elem_of_fmap_2, (list_elem_of_lookup_2 _ i).
      + rewrite Hd, Hid. left.
    - rewrite <- (list_fmap_id l2) at 2. apply list_fmap_ext.
      intros i r Hr; simpl. case_decide as Hd; [|done]. exfalso.
      apply Hl2. rewrite <- Hid, <- Hd.
      by apply list_elem_of_fmap_2, (list_elem_of_lookup_2 _ i). }
  assert (∀ r, r ∈ l1 ++ u :: l2 → User.email r ≠ User.email user)
    as Hfresh.
  { intros r Hr Heq. apply Hfree, Exists_exists. exists r.
    split; [done|]. by rewrite Heq. }
  unfold table_ok, emails_normalized in *.
  rewrite !fmap_app, !fmap_cons in *.
  rewrite !Forall_app, !Forall_cons in *.
  apply NoDup_app in Hids as (Hi1 & Hi2 & [Hi3 Hi4]%NoDup_cons).
  apply NoDup_app in Hem as (He1 & He2 & [He3 He4]%NoDup_cons).
  split_and!; try tauto.
  - apply NoDup_app. split_and!; [done| |apply NoDup_cons; by rewrite Hid].
    intros x Hx. rewrite Hid. by apply Hi2.
  - apply NoDup_app. split_and!; [done| |apply NoDup_cons; split; [|done]].
    + intros x (r & -> & Hr)%list_elem_of_fmap
             [Hx|Hx]%elem_of_cons.
      * apply (Hfresh r); [|done]. apply elem_of_app. by left.
      * apply (He2 (User.email r)); [by apply list_elem_of_fmap_2|].
        by right.
    + intros (r & Heq & Hr)%list_elem_of_fmap.
      apply (Hfresh r); [|done]. apply elem_of_app. right. by right.
  - by rewrite Hset, lower_idemp.
  - rewrite Hset. apply truthy_true. rewrite truthy_lower.
    by apply truthy_true.
Qed.

Section invariant.
Variable hash_password : string → string.
Variable verify_password : string → string → bool.

Lemma create_keeps_table_ok defaults data s :
  table_ok (rows s) → admissible (ReqCreate defaults data) s →
  table_ok (rows (UserService.create hash_password defaults data s).2).
Proof.
  intros Hok [Hne Hfresh]. rewrite create_run; simpl.
  destruct (bool_decide (email_taken _ (rows s))) eqn:Ht; [done|].
  apply bool_decide_eq_false in Ht.
  assert (table_ok
            (rows s ++
             [User.new defaults (lower (UserCreate.email data))
                (UserCreate.first_name data) (UserCreate.last_name data)
                (UserCreate.phone data) (UserCreate.role data)
                (hash_password (UserCreate.password data))])) as Hnew.
  { apply table_ok_snoc; simpl; [done|done| |apply lower_idemp|].
    - intros (r & Heq & Hr)%list_elem_of_fmap. apply Ht, Exists_exists.
      by exists r.
    - apply truthy_true. rewrite truthy_lower. by apply truthy_true. }
  destruct (UserCreate.phone data) as [phone|];
    [destruct (truthy phone);
       [destruct (bool_decide (phone_taken _ (rows s)))|]|];
    try destruct (bool_decide (store_refuses _ (rows s))); done.
Qed.

Lemma update_keeps_table_ok user_id patch s :
  table_ok (rows s) →
  table_ok (rows (UserService.update user_id patch s).2).
Proof.
  intros Hok. pose proof Hok as (Hnd & _).
  destruct (filter_key_cases User.id user_id (rows s) Hnd)
    as [Hnone|(u & Hin & <- & _)].
  - unfold UserService.update, UserService.get_by_id, mbind, M_bind.
    rewrite repo_get_by_id_run, Hnone. done.
  - destruct (update_outcome s u patch Hok Hin)
      as (user & new & -> & _ & Hp & _).
    by apply (table_ok_patched _ patch u).
Qed.

Lemma update_password_keeps_table_ok user_id current new s :
  table_ok (rows s) →
  table_ok (rows (UserService.update_password hash_password
                    verify_password user_id current new s).2).
Proof.
  intros Hok. pose proof Hok as (Hnd & _).
  destruct (filter_key_cases User.id user_id (rows s) Hnd)
    as [Hnone|(u & Hin & <- & _)].
  - unfold UserService.update_password, UserService.get_by_id,
      mbind, M_bind.
    rewrite repo_get_by_id_run, Hnone. done.
  - rewrite update_password_run by done.
    destruct (verify_password current (User.password_hash u)); [|done].
    pose proof (written_password_hash (logged s (CallGetById (User.id u)))
                  (hash_password new) u) as (_ & Hid & Hem & _).
    cbv zeta in *. cbn [rows snd]. by apply (store_row_table_ok u).
Qed.

Lemma delete_keeps_table_ok user_id s :
  table_ok (rows s) →
  table_ok (rows (UserService.delete user_id s).2).
Proof.
  intros Hok. unfold UserService.delete, UserService.get_by_id,
    UserRepository.delete, mbind, M_bind.
  rewrite repo_get_by_id_run.
  destruct (filter _ (rows s)) as [|u [|u' l]]; simpl; [done| |done].
  by apply table_ok_filter.
Qed.

Lemma verify_credentials_reads email password s :
  rows (UserService.verify_credentials verify_password email password s).2
  = rows s.
Proof.
  unfold UserService.verify_credentials, mbind, M_bind.
  rewrite repo_get_by_email_run.
  destruct (filter _ (rows s)) as [|u [|u' l]]; simpl; [done| |done].
  destruct (verify_password password (User.password_hash u));
    simpl; [|done].
  by destruct (User.is_active u).
Qed.

(** Every request keeps the invariants of the table. *)
Lemma serve_keeps_table_ok r s :
  table_ok (rows s) → admissible r s →
  table_ok (rows (serve hash_password verify_password r s)).
Proof.
  intros Hok Hadm. destruct r; simpl.
  - unfold UserService.get_by_id, mbind, M_bind.
    rewrite repo_get_by_id_run.
    by destruct (filter _ (rows s)) as [|u [|u' l]].
  - unfold UserService.get_by_email, mbind, M_bind.
    rewrite repo_get_by_email_run.
    by destruct (filter _ (rows s)) as [|u [|u' l]].
  - done.
  - by apply create_keeps_table_ok.
  - by apply update_keeps_table_ok.
  - by apply update_password_keeps_table_ok.
  - by apply delete_keeps_table_ok.
  - by rewrite verify_credentials_reads.
Qed.

(** The tables that the service builds satisfy the invariants of the data
    model: identifiers and emails are unique, emails are lowercase. *)
Lemma reachable_table_ok s :
  reachable hash_password verify_password s → table_ok (rows s).
Proof.
  induction 1 as [|s r _ IH Hadm].
  - apply table_ok_nil.
  - by apply serve_keeps_table_ok.
Qed.

End invariant.

(** * Further properties of the service and of the repository *)

(** ** Lookups *)

Lemma repo_get_by_phone_run phone s :
  UserRepository.get_by_phone phone s =
  (match filter (λ u, User.phone u = Some phone) (rows s) with
   | [] => Return None
   | [u] => Return (Some u)
   | _ => Raise MultipleResultsFound
   end, logged s (CallGetByPhone phone)).
Proof.
  unfold UserRepository.get_by_phone; run.
  by destruct (filter _ (rows s)) as [|u [|u' l]].
Qed.

Lemma service_get_by_id_missing user_id s :
  (∀ r, r ∈ rows s → User.id r ≠ user_id) →
  UserService.get_by_id user_id s
  = (Raise (UserNotFoundError ("User with ID " +:+ user_id +:+ " not found")),
     logged s (CallGetById user_id)).
Proof.
  intros Hno. unfold UserService.get_by_id, mbind, M_bind.
  rewrite repo_get_by_id_run.
  assert (filter (λ u, User.id u = user_id) (rows s) = []) as ->; [|done].
  apply (filter_nil_not_taken User.id). intros (r & Hr & Heq).
  by apply (Hno r).
Qed.

Lemma stored_email_lookup_any_case email u s :
  table_ok (rows s) → u ∈ rows s → lower email = User.email u →
  filter (λ r, User.email r = lower email) (rows s) = [u].
Proof.
  intros (_ & Hem & _) Hin ->. by apply (filter_unique_key User.email).
Qed.

Section more_with_password_primitive.
Variable hash_password : string → string.
Variable verify_password : string → string → bool.

(** X1.  For an identifier that no row has, [get_by_id], [update],
    [update_password] and [delete] raise [UserNotFoundError] with the
    identifier in the message; the only repository call is the lookup, and
    the table is left as it was. *)
Theorem missing_user_not_found user_id s :
  (∀ r, r ∈ rows s → User.id r ≠ user_id) →
  let message := "User with ID " +:+ user_id +:+ " not found" in
  let after := logged s (CallGetById user_id) in
  UserService.get_by_id user_id s = (Raise (UserNotFoundError message), after)
  ∧ (∀ patch, UserService.update user_id patch s
              = (Raise (UserNotFoundError message), after))
  ∧ (∀ current new,
       UserService.update_password hash_password verify_password
         user_id current new s
       = (Raise (UserNotFoundError message), after))
  ∧ UserService.delete user_id s
    = (Raise (UserNotFoundError message), after)
  ∧ rows after = rows s.
Proof.
  intros Hno message after. subst message after.
  pose proof (service_get_by_id_missing user_id s Hno) as Hget.
  split_and!; [done| | | |done].
  - intros patch. unfold UserService.update, mbind, M_bind.
    by rewrite Hget.
  - intros current new. unfold UserService.update_password, mbind, M_bind.
    by rewrite Hget.
  - unfold UserService.delete, mbind, M_bind. by rewrite Hget.
Qed.

(** X2.  Lookups by email ignore the case of the argument.  For a stored
    user and any spelling of its email, [get_by_email] returns the user,
    [exists_by_email] answers true, and [verify_credentials] with a
    password that verifies returns the user when it is active.  For an
    email that no row has, [get_by_email] raises [UserNotFoundError] with
    the email as it was typed in the message. *)
Theorem email_lookups_ignore_case s :
  (∀ u email,
     table_ok (rows s) → u ∈ rows s → lower email = User.email u →
     (UserService.get_by_email email s).1 = Return u
     ∧ (UserRepository.exists_by_email email s).1 = Return true
     ∧ ∀ password,
         verify_password password (User.password_hash u) = true →
         User.is_active u = true →
         (UserService.verify_credentials verify_password
            email password s).1 = Return u)
  ∧ (∀ email,
       ¬ email_taken email (rows s) →
       (UserService.get_by_email email s).1
       = Raise (UserNotFoundError
                  ("User with email " +:+ email +:+ " not found"))).
Proof.
  split.
  - intros u email Hok Hin Hlow.
    pose proof (stored_email_lookup_any_case email u s Hok Hin Hlow) as Hf.
    split_and!.
    + unfold UserService.get_by_email, mbind, M_bind.
      by rewrite repo_get_by_email_run, Hf.
    + rewrite repo_exists_by_email_run; simpl.
      rewrite bool_decide_eq_true_2; [done|].
      apply Exists_exists. by exists u.
    + intros password Hv Ha.
      unfold UserService.verify_credentials, mbind, M_bind.
      by rewrite repo_get_by_email_run, Hf, Hv, Ha.
  - intros email Hfree.
    unfold UserService.get_by_email, mbind, M_bind.
    rewrite repo_get_by_email_run.
    assert (filter (λ u, User.email u = lower email) (rows s) = []) as ->;
      [|done].
    apply (filter_nil_not_taken User.email).
    by rewrite <- Exists_exists.
Qed.

(** ** Creation, continued *)

(** X3.  A user that [create] returned is found afterwards: by its
    identifier, and by any spelling of the email it was created with; the
    users that were stored before are still found by their identifiers.
    The email of the input is assumed not empty. *)
Theorem create_then_lookup defaults data s user s' :
  table_ok (rows s) →
  UserCreate.email data ≠ "" →
  UserService.create hash_password defaults data s = (Return user, s') →
  (UserService.get_by_id (User.id user) s').1 = Return user
  ∧ (∀ email, lower email = lower (UserCreate.email data) →
       (UserService.get_by_email email s').1 = Return user
       ∧ (UserRepository.exists_by_email email s').1 = Return true)
  ∧ (∀ r, r ∈ rows s → (UserService.get_by_id (User.id r) s').1 = Return r).
Proof.
  intros Hok Hne Hrun.
  destruct (create_returned _ _ _ _ _ _ Hrun)
    as (Huser & Hrows & _ & _ & Hst).
  assert (table_ok (rows s')) as Hok'.
  { assert (admissible (ReqCreate defaults data) s) as Hadm.
    { split; [done|]. intros Hid. apply Hst, store_refuses_iff. left.
      by rewrite Huser. }
    pose proof (create_keeps_table_ok hash_password defaults data s Hok Hadm)
      as H. by rewrite Hrun in H. }
  assert (user ∈ rows s') as Hin.
  { rewrite Hrows. apply elem_of_app. right. left. }
  split_and!.
  - by rewrite stored_get_by_id.
  - intros email Hlow.
    assert (lower email = User.email user) as Hlow'
      by (by rewrite Huser, Hlow).
    pose proof (stored_email_lookup_any_case email user s' Hok' Hin Hlow')
      as Hf.
    split.
    + unfold UserService.get_by_email, mbind, M_bind.
      by rewrite repo_get_by_email_run, Hf.
    + rewrite repo_exists_by_email_run; simpl.
      rewrite bool_decide_eq_true_2; [done|].
      apply Exists_exists. by exists user.
  - intros r Hr. rewrite stored_get_by_id; [done|done|].
    rewrite Hrows. apply elem_of_app. by left.
Qed.

(** X4.  A user that [create] returned can log in with the email and the
    password of the creation exactly when the entity constructor made it
    active: [verify_credentials] returns the user when the default of
    [is_active] is true and raises [UserServiceError] otherwise.  The
    primitive is assumed to verify the hash of the password. *)
Theorem create_then_login defaults data s user s' :
  table_ok (rows s) →
  admissible (ReqCreate defaults data) s →
  verify_password (UserCreate.password data)
    (hash_password (UserCreate.password data)) = true →
  UserService.create hash_password defaults data s = (Return user, s') →
  (UserService.verify_credentials verify_password
     (UserCreate.email data) (UserCreate.password data) s').1
  = if User.default_is_active defaults then Return user
    else Raise (UserServiceError "User account is deactivated").
Proof.
  intros Hok Hadm Hv Hrun.
  assert (table_ok (rows s')) as Hok'.
  { pose proof (create_keeps_table_ok hash_password defaults data s Hok Hadm)
      as H. by rewrite Hrun in H. }
  destruct (create_returned _ _ _ _ _ _ Hrun) as (Huser & Hrows & _).
  assert (user ∈ rows s') as Hin.
  { rewrite Hrows. apply elem_of_app. right. left. }
  assert (lower (UserCreate.email data) = User.email user) as Hlow
    by (by rewrite Huser).
  unfold UserService.verify_credentials, mbind, M_bind.
  rewrite repo_get_by_email_run.
  rewrite (stored_email_lookup_any_case _ user s' Hok' Hin Hlow).
  rewrite Huser; simpl. rewrite Hv; simpl.
  by destruct (User.default_is_active defaults).
Qed.

(** X5.  With an email that is free, a phone of the input that is not
    empty and that a row already holds makes [create] raise
    [UserAlreadyExistsError] with the phone in the message, after the two
    checks; the table is left as it was. *)
Theorem create_phone_taken defaults data s phone :
  ¬ email_taken (UserCreate.email data) (rows s) →
  UserCreate.phone data = Some phone → phone ≠ "" →
  phone_taken phone (rows s) →
  UserService.create hash_password defaults data s
  = (Raise (UserAlreadyExistsError
              ("User with phone " +:+ phone +:+ " already exists")),
     mkSession (rows s)
       (calls s ++ [CallExistsByEmail (UserCreate.email data);
                    CallExistsByPhone phone])).
Proof.
  intros Hfree Hp Hne%truthy_true Htaken. rewrite create_run; simpl.
  rewrite (bool_decide_eq_false_2 _ Hfree), Hp, Hne.
  rewrite (bool_decide_eq_true_2 _ Htaken).
  unfold logged; simpl. by rewrite <- app_assoc.
Qed.

(** X6.  The empty phone is not checked by the service.  With a free
    email and the phone [""], [create] makes no phone uniqueness check
    and hands the row, with the phone [""], to the repository.  When a
    stored row already has the phone [""], it is the store that refuses:
    [create] raises [IntegrityError] and not [UserAlreadyExistsError], and
    the table is left as it was.  When no row has it and the identifier
    is new, [create] returns the user and the row is added. *)
Theorem create_blank_phone_unchecked defaults data s :
  ¬ email_taken (UserCreate.email data) (rows s) →
  UserCreate.phone data = Some "" →
  let user :=
    User.new defaults (lower (UserCreate.email data))
      (UserCreate.first_name data) (UserCreate.last_name data)
      (Some "") (UserCreate.role data)
      (hash_password (UserCreate.password data)) in
  let run := UserService.create hash_password defaults data s in
  calls run.2 = calls s ++ [CallExistsByEmail (UserCreate.email data);
                            CallCreate user]
  ∧ (phone_taken "" (rows s) →
       run.1 = Raise IntegrityError ∧ rows run.2 = rows s)
  ∧ (User.default_id defaults ∉ User.id <$> rows s →
     ¬ phone_taken "" (rows s) →
       run.1 = Return user ∧ rows run.2 = rows s ++ [user]).
Proof.
  intros Hfree Hp user run0. subst run0.
  rewrite create_run; cbv zeta.
  rewrite (bool_decide_eq_false_2 _ Hfree), Hp. cbn [truthy]. fold user.
  split_and!.
  - destruct (bool_decide (store_refuses user (rows s))); simpl;
      by rewrite <- app_assoc.
  - intros Htaken. rewrite bool_decide_eq_true_2; [done|].
    apply store_refuses_iff. right. right. by exists "".
  - intros Hid Hnone. rewrite (store_accepts user); [done|done| |].
    + intros r Hr Heq. apply Hfree, Exists_exists. by exists r.
    + intros r phone Hr [= <-] Heq. apply Hnone, Exists_exists. by exists r.
Qed.

End more_with_password_primitive.

(** ** Update, continued *)

(** The three ways through the step "check email uniqueness if changing". *)
Lemma wp_email patch user s' (Q : Outcome User.t → Session → Prop) :
  (∀ email, UserUpdate.email patch = Some email →
     email ≠ "" → lower email ≠ User.email user →
     email_taken email (rows s') →
     Q (Raise (UserAlreadyExistsError
                 ("User with email " +:+ email +:+ " already exists")))
       (logged s' (CallExistsByEmail email))) →
  (∀ email, UserUpdate.email patch = Some email →
     email ≠ "" → lower email ≠ User.email user →
     ¬ email_taken email (rows s') →
     let user' := touch (logged s' (CallExistsByEmail email))
                    (User.set_email (lower email) user) in
     Q (Return user')
       (mkSession (store_row user' (rows s'))
          (calls s' ++ [CallExistsByEmail email]))) →
  ((∀ email, UserUpdate.email patch = Some email →
      email = "" ∨ lower email = User.email user) →
   Q (Return user) s') →
  post (match UserUpdate.email patch with
        | Some email =>
            if truthy email && bool_decide (lower email ≠ User.email user)
            then
              taken ← UserRepository.exists_by_email email;
              if taken : bool then
                raise (UserAlreadyExistsError
                         ("User with email " +:+ email
                          +:+ " already exists"))
              else setattr (User.set_email (lower email)) user
            else mret user
        | None => mret user
        end) s' Q.
Proof.
  intros Htaken Hfree Hskip. unfold post.
  destruct (UserUpdate.email patch) as [email|] eqn:He;
    [|by apply Hskip].
  destruct (truthy email && bool_decide _) eqn:Hc.
  - apply andb_true_iff in Hc as [Ht%truthy_true Hd%bool_decide_eq_true].
    unfold mbind, M_bind. rewrite repo_exists_by_email_run.
    destruct (bool_decide (email_taken email (rows s'))) eqn:Hx;
      cbn [fst snd].
    + apply bool_decide_eq_true in Hx. by apply Htaken.
    + apply bool_decide_eq_false in Hx. unfold setattr.
      rewrite decide_False by (intros Heq; by rewrite <- Heq in Hd).
      by apply Hfree.
  - apply Hskip. intros e [= <-].
    apply andb_false_iff in Hc as [Hc|Hc].
    + left. destruct email; [done|discriminate].
    + right. apply bool_decide_eq_false in Hc.
      destruct (decide (lower email = User.email user)); [done|].
      by exfalso.
Qed.

(** The three ways through the step "check phone uniqueness if changing". *)
Lemma wp_phone patch user s' (Q : Outcome User.t → Session → Prop) :
  (∀ phone, UserUpdate.phone patch = Some phone →
     phone ≠ "" → Some phone ≠ User.phone user →
     phone_taken phone (rows s') →
     Q (Raise (UserAlreadyExistsError
                 ("User with phone " +:+ phone +:+ " already exists")))
       (logged s' (CallExistsByPhone phone))) →
  (∀ phone, UserUpdate.phone patch = Some phone →
     phone ≠ "" → Some phone ≠ User.phone user →
     ¬ phone_taken phone (rows s') →
     let user' := touch (logged s' (CallExistsByPhone phone))
                    (User.set_phone (Some phone) user) in
     Q (Return user')
       (mkSession (store_row user' (rows s'))
          (calls s' ++ [CallExistsByPhone phone]))) →
  ((∀ phone, UserUpdate.phone patch = Some phone →
      phone = "" ∨ Some phone = User.phone user) →
   Q (Return user) s') →
  post (match UserUpdate.phone patch with
        | Some phone =>
            if truthy phone && bool_decide (Some phone ≠ User.phone user)
            then
              taken ← UserRepository.exists_by_phone phone;
              if taken : bool then
                raise (UserAlreadyExistsError
                         ("User with phone " +:+ phone
                          +:+ " already exists"))
              else setattr (User.set_phone (Some phone)) user
            else mret user
        | None => mret user
        end) s' Q.
Proof.
  intros Htaken Hfree Hskip. unfold post.
  destruct (UserUpdate.phone patch) as [phone|] eqn:He;
    [|by apply Hskip].
  destruct (truthy phone && bool_decide _) eqn:Hc.
  - apply andb_true_iff in Hc as [Ht%truthy_true Hd%bool_decide_eq_true].
    unfold mbind, M_bind. rewrite repo_exists_by_phone_run.
    destruct (bool_decide (phone_taken phone (rows s'))) eqn:Hx;
      cbn [fst snd].
    + apply bool_decide_eq_true in Hx. by apply Htaken.
    + apply bool_decide_eq_false in Hx. unfold setattr.
      rewrite decide_False by (intros Heq; by rewrite <- Heq in Hd).
      by apply Hfree.
  - apply Hskip. intros p [= <-].
    apply andb_false_iff in Hc as [Hc|Hc].
    + left. destruct phone; [done|discriminate].
    + right. apply bool_decide_eq_false in Hc.
      destruct (decide (Some phone = User.phone user)); [done|].
      by exfalso.
Qed.

(** The steps [if data.f is not None: user.f = data.f]: a value that
    differs from the one of the entity is written, an equal one or none
    leaves the entity. *)
Lemma wp_assign {V} (o : option V) (f : V → User.t → User.t) user s'
    (Q : Outcome User.t → Session → Prop) :
  (∀ v, o = Some v → f v user ≠ user →
     Q (Return (touch s' (f v user)))
       (mkSession (store_row (touch s' (f v user)) (rows s')) (calls s'))) →
  (∀ v, o = Some v → f v user = user → Q (Return user) s') →
  (o = None → Q (Return user) s') →
  post (match o with
        | Some v => setattr (f v) user
        | None => mret user
        end) s' Q.
Proof.
  intros Hsome Hsame Hnone. unfold post. destruct o as [v|]; [|by auto].
  unfold setattr. destruct (decide (f v user = user)); cbn [fst snd]; eauto.
Qed.

(** Split [assigned] for the next stage: the fields of the earlier stages
    follow from the hypothesis, the field of the stage is left. *)
Ltac assigned_next :=
  unfold assigned in *; simpl;
  repeat match goal with H : _ ∧ _ |- _ => destruct H end;
  split_and!; intros ?;
  try (exfalso; lia);
  try (match goal with H : (_ ≤ _)%nat → _ |- _ => apply H; lia end).

(** An assignment that left the entity: the field had the value. *)
Ltac unchanged_field :=
  match goal with
  | H : _ ?user = ?user |- ?proj ?user = _ =>
      apply (f_equal proj) in H; simpl in H
  end.

(** When [update] returns, every field that the patch carries has been
    assigned. *)
Lemma update_assigns s u patch :
  NoDup (User.id <$> rows s) → u ∈ rows s →
  post (UserService.update (User.id u) patch) s
    (λ o _, ∀ r, o = Return r → assigned 6 patch r).
Proof.
  intros Hnd Hin.
  pose (P := λ (k : nat) (o : Outcome User.t) (_ : Session),
          match o with
          | Return user => assigned k patch user
          | Raise _ => True
          end).
  unfold UserService.update. apply post_bind. unfold post at 1.
  rewrite (service_get_by_id_found _ u)
    by (by apply (filter_unique_key User.id)).
  simpl.
  apply post_bind.
  apply (post_mono _ _ (λ o s', step_post s patch u u o s' ∧ P 1%nat o s')).
  { split; [by apply step_email, update_inv_init|].
    apply wp_email; simpl; [done| |].
    - intros email He Hne Hd _. assigned_next.
      intros e He' _. congruence.
    - intros Hskip. assigned_next.
      intros e He Hne. destruct (Hskip e He); done. }
  intros [user1|e] s1 [I1 H1]; simpl in I1, H1; [|done].
  apply post_bind.
  apply (post_mono _ _
           (λ o s', step_post s patch u user1 o s' ∧ P 2%nat o s')).
  { split; [by apply step_phone|]. clear I1.
    apply wp_phone; simpl; [done| |].
    - intros phone He Hne Hd _. assigned_next.
      intros p Hp _. congruence.
    - intros Hskip. assigned_next.
      intros p Hp Hne. destruct (Hskip p Hp); done. }
  intros [user2|e] s2 [I2 H2]; simpl in I2, H2; [|done].
  apply post_bind.
  apply (post_mono _ _
           (λ o s', step_post s patch u user2 o s' ∧ P 3%nat o s')).
  { split.
    - apply step_assign; [exact I2|]. intros v Hv.
      destruct I2 as (_ & [] & _). constructor; simpl; auto.
    - clear I1 I2. apply wp_assign; simpl; intros; assigned_next; intros;
        try unchanged_field; congruence. }
  intros [user3|e] s3 [I3 H3]; simpl in I3, H3; [|done].
  apply post_bind.
  apply (post_mono _ _
           (λ o s', step_post s patch u user3 o s' ∧ P 4%nat o s')).
  { split.
    - apply step_assign; [exact I3|]. intros v Hv.
      destruct I3 as (_ & [] & _). constructor; simpl; auto.
    - clear I1 I2 I3. apply wp_assign; simpl; intros; assigned_next; intros;
        try unchanged_field; congruence. }
  intros [user4|e] s4 [I4 H4]; simpl in I4, H4; [|done].
  apply post_bind.
  apply (post_mono _ _
           (λ o s', step_post s patch u user4 o s' ∧ P 5%nat o s')).
  { split.
    - apply step_assign; [exact I4|]. intros v Hv.
      destruct I4 as (_ & [] & _). constructor; simpl; auto.
    - clear I1 I2 I3 I4.
      apply wp_assign; simpl; intros; assigned_next; intros;
        try unchanged_field; congruence. }
  intros [user5|e] s5 [I5 H5]; simpl in I5, H5; [|done].
  apply post_bind.
  apply (post_mono _ _
           (λ o s', step_post s patch u user5 o s' ∧ P 6%nat o s')).
  { split.
    - apply step_assign; [exact I5|]. intros v Hv.
      destruct I5 as (_ & [] & _). constructor; simpl; auto.
    - clear I1 I2 I3 I4 I5.
      apply wp_assign; simpl; intros; assigned_next; intros;
        try unchanged_field; congruence. }
  intros [user6|e] s6 [I6 H6]; simpl in I6, H6; [|done].
  unfold post. rewrite repo_update_run; [by intros r [= <-]|].
  destruct I6 as (-> & Hp & _).
  apply (refreshed_row _ u); [done|done|apply (patched_id _ _ _ _ Hp)].
Qed.

(** What a successful [update] did. *)
Lemma update_returned s u patch r s' :
  table_ok (rows s) → u ∈ rows s →
  UserService.update (User.id u) patch s = (Return r, s') →
  rows s' = store_row r (rows s)
  ∧ patched (rows s) patch u r
  ∧ assigned 6 patch r
  ∧ table_ok (rows s')
  ∧ r ∈ rows s'.
Proof.
  intros Hok Hin Hrun.
  destruct (update_outcome s u patch Hok Hin)
    as (user & new & Hrows & _ & Hp & _ & _ & Hout).
  rewrite Hrun in Hrows, Hout. simpl in Hrows, Hout. subst user.
  pose proof Hok as (Hnd & _).
  pose proof (update_assigns s u patch Hnd Hin) as Has.
  unfold post in Has. rewrite Hrun in Has.
  split_and!; [done|done|by apply Has| |].
  - rewrite Hrows. by apply (table_ok_patched _ patch u).
  - rewrite Hrows. apply (elem_of_store_row u); [done|].
    apply (patched_id _ _ _ _ Hp).
Qed.

(** X7.  When [update] returns, the entity has the value of the patch in
    every field that the patch carries: the lowercased email and the phone
    when they are not empty, and the first name, the last name, the role
    and the active flag as given.  The entity is the row of the user in the
    table afterwards. *)
Theorem update_applies_patch s u patch r s' :
  table_ok (rows s) → u ∈ rows s →
  UserService.update (User.id u) patch s = (Return r, s') →
  (∀ email, UserUpdate.email patch = Some email → email ≠ "" →
            User.email r = lower email)
  ∧ (∀ phone, UserUpdate.phone patch = Some phone → phone ≠ "" →
              User.phone r = Some phone)
  ∧ (∀ v, UserUpdate.first_name patch = Some v → User.first_name r = v)
  ∧ (∀ v, UserUpdate.last_name patch = Some v → User.last_name r = v)
  ∧ (∀ v, UserUpdate.role patch = Some v → User.role r = v)
  ∧ (∀ v, UserUpdate.is_active patch = Some v → User.is_active r = v)
  ∧ rows s' = store_row r (rows s)
  ∧ (UserService.get_by_id (User.id u) s').1 = Return r.
Proof.
  intros Hok Hin Hrun.
  destruct (update_returned s u patch r s' Hok Hin Hrun)
    as (Hrows & Hp & Has & Hok' & Hin').
  destruct Has as (H1 & H2 & H3 & H4 & H5 & H6).
  split_and!; [apply H1|apply H2|apply H3|apply H4|apply H5|apply H6
              |done|]; try lia.
  rewrite <- (patched_id _ _ _ _ Hp). by rewrite stored_get_by_id.
Qed.

(** X8.  When the email of the patch passes (it is absent, empty, the
    stored one up to case, or free), a phone of the patch that is not
    empty, differs from the stored phone and is held by a row makes
    [update] raise [UserAlreadyExistsError] with the phone in the
    message. *)
Theorem update_phone_taken s u patch phone :
  table_ok (rows s) → u ∈ rows s →
  (∀ email, UserUpdate.email patch = Some email →
            email = "" ∨ lower email = User.email u
            ∨ ¬ email_taken email (rows s)) →
  UserUpdate.phone patch = Some phone → phone ≠ "" →
  Some phone ≠ User.phone u →
  phone_taken phone (rows s) →
  (UserService.update (User.id u) patch s).1
  = Raise (UserAlreadyExistsError
             ("User with phone " +:+ phone +:+ " already exists")).
Proof.
  intros Hok Hin Hemail Hp Hne Hd Htaken.
  destruct (update_outcome s u patch Hok Hin)
    as (user & new & _ & _ & Hpat & _ & _ & Hout).
  pose proof Hok as (Hnd & _).
  pose proof (update_assigns s u patch Hnd Hin) as Has. unfold post in Has.
  destruct (UserService.update (User.id u) patch s).1 as [r|e].
  - exfalso. subst r.
    destruct (Has user eq_refl) as (_ & H2 & _).
    specialize (H2 ltac:(lia) phone Hp Hne).
    destruct (patched_phone _ _ _ _ Hpat)
      as [Hsame|(p & Hp' & _ & _ & Hfree & _)]; [congruence|].
    apply Hfree. congruence.
  - destruct Hout as [(em & He & Hne' & Hd' & Ht & _)
                     |(p & Hp' & _ & _ & _ & ->)].
    + exfalso. destruct (Hemail em He) as [?|[?|?]]; done.
    + congruence.
Qed.

(** X9.  [update] is not undone when it raises.  With a patch whose email
    is new and free and whose phone is held by another row, the email is
    assigned before the phone check raises: [update] raises
    [UserAlreadyExistsError] for the phone after the two checks, and the
    row of the user in the session has the new email, every other column
    but [updated_at] being as before. *)
Theorem update_refused_after_email_assigned s u patch email phone :
  table_ok (rows s) → u ∈ rows s →
  UserUpdate.email patch = Some email → email ≠ "" →
  lower email ≠ User.email u → ¬ email_taken email (rows s) →
  UserUpdate.phone patch = Some phone → phone ≠ "" →
  Some phone ≠ User.phone u → phone_taken phone (rows s) →
  ∃ user,
    UserService.update (User.id u) patch s
    = (Raise (UserAlreadyExistsError
                ("User with phone " +:+ phone +:+ " already exists")),
       mkSession (store_row user (rows s))
         (calls s ++ [CallGetById (User.id u); CallExistsByEmail email;
                      CallExistsByPhone phone]))
    ∧ filter (λ r, User.id r = User.id u) (store_row user (rows s))
      = [user]
    ∧ User.email user = lower email
    ∧ stamped (User.set_email (lower email) u) user.
Proof.
  intros Hok Hin He Hne Hd Hfree Hp Hpne Hpd Htaken.
  pose proof Hok as (Hnd & _).
  exists (touch (logged (logged s (CallGetById (User.id u)))
                   (CallExistsByEmail email))
            (User.set_email (lower email) u)).
  split_and!; [|by apply stored_row_after|done|apply stamped_touch].
  unfold UserService.update, mbind, M_bind.
  rewrite stored_get_by_id by done. cbv beta iota. rewrite He.
  apply truthy_true in Hne. rewrite Hne.
  rewrite (bool_decide_eq_true_2 _ Hd).
  change (true && true) with true. cbv beta iota.
  rewrite repo_exists_by_email_run.
  rewrite (bool_decide_eq_false_2 _ Hfree). cbv beta iota.
  rewrite setattr_changed by (intros Heq; apply Hd; by rewrite <- Heq).
  cbv beta iota. rewrite Hp.
  apply truthy_true in Hpne. rewrite Hpne.
  rewrite (bool_decide_eq_true_2 (Some phone ≠ _)) by done.
  change (true && true) with true. cbv beta iota.
  rewrite repo_exists_by_phone_run.
  rewrite bool_decide_eq_true_2.
  - unfold logged; simpl. by rewrite <- !app_assoc.
  - simpl. by apply (taken_store_row User.phone _ u).
Qed.

(** A patch whose values the entity already has: [update] writes
    nothing, checks nothing and returns the entity. *)
Lemma update_settled s r patch :
  NoDup (User.id <$> rows s) → r ∈ rows s →
  assigned 6 patch r →
  UserService.update (User.id r) patch s
  = (Return r,
     mkSession (rows s)
       (calls s ++ [CallGetById (User.id r); CallUpdate r])).
Proof.
  intros Hnd Hin (A1 & A2 & A3 & A4 & A5 & A6).
  specialize (A1 ltac:(lia)). specialize (A2 ltac:(lia)).
  specialize (A3 ltac:(lia)). specialize (A4 ltac:(lia)).
  specialize (A5 ltac:(lia)). specialize (A6 ltac:(lia)).
  pose (Q := λ (o : Outcome User.t) (s2 : Session),
          o = Return r
          ∧ s2 = logged s (CallGetById (User.id r))).
  assert (post (UserService.update (User.id r) patch) s
            (λ o s2, o = Return r
                     ∧ s2 = mkSession (rows s)
                              (calls s ++ [CallGetById (User.id r);
                                           CallUpdate r]))) as Hpost.
  { unfold UserService.update. apply post_bind. unfold post at 1.
    rewrite (service_get_by_id_found _ r)
      by (by apply (filter_unique_key User.id)).
    cbn [fst snd].
    apply post_bind. apply (post_mono _ _ Q).
    { apply wp_email; [| |done].
      - intros email He Hne Hd _. exfalso. apply Hd. symmetry. by apply A1.
      - intros email He Hne Hd _. exfalso. apply Hd. symmetry. by apply A1. }
    intros o s1 [-> ->].
    apply post_bind. apply (post_mono _ _ Q).
    { apply wp_phone; [| |done].
      - intros phone Hp Hne Hd _. exfalso. apply Hd. symmetry. by apply A2.
      - intros phone Hp Hne Hd _. exfalso. apply Hd. symmetry. by apply A2. }
    intros o s1 [-> ->].
    apply post_bind. apply (post_mono _ _ Q).
    { apply wp_assign; [|done..]. intros v Hv Hne. exfalso. apply Hne.
      rewrite <- (A3 v Hv). by destruct r. }
    intros o s1 [-> ->].
    apply post_bind. apply (post_mono _ _ Q).
    { apply wp_assign; [|done..]. intros v Hv Hne. exfalso. apply Hne.
      rewrite <- (A4 v Hv). by destruct r. }
    intros o s1 [-> ->].
    apply post_bind. apply (post_mono _ _ Q).
    { apply wp_assign; [|done..]. intros v Hv Hne. exfalso. apply Hne.
      rewrite <- (A5 v Hv). by destruct r. }
    intros o s1 [-> ->].
    apply post_bind. apply (post_mono _ _ Q).
    { apply wp_assign; [|done..]. intros v Hv Hne. exfalso. apply Hne.
      rewrite <- (A6 v Hv). by destruct r. }
    intros o s1 [-> ->].
    unfold post. rewrite repo_update_run.
    - unfold logged; simpl. by rewrite <- app_assoc.
    - by apply (filter_unique_key User.id). }
  unfold post in Hpost. destruct Hpost as [Ho Hs].
  by destruct (UserService.update (User.id r) patch s) as [o s2];
    simpl in *; subst.
Qed.

(** X10.  [update] is idempotent on success: the same patch applied again
    returns the same entity, leaves the table as the first run left it,
    and makes no uniqueness check. *)
Theorem update_idempotent s u patch r s' :
  table_ok (rows s) → u ∈ rows s →
  UserService.update (User.id u) patch s = (Return r, s') →
  ∃ s'' new,
    UserService.update (User.id u) patch s' = (Return r, s'')
    ∧ rows s'' = rows s'
    ∧ calls s'' = calls s' ++ new
    ∧ (∀ email, CallExistsByEmail email ∉ new)
    ∧ (∀ phone, CallExistsByPhone phone ∉ new).
Proof.
  intros Hok Hin Hrun.
  destruct (update_returned s u patch r s' Hok Hin Hrun)
    as (Hrows & Hp & Has & Hok' & Hin').
  rewrite <- (patched_id _ _ _ _ Hp).
  rewrite (update_settled s' r patch) by (done || by destruct Hok').
  eexists _, _. split_and!; [done|done|done|..].
  - intros email [|[|[]%elem_of_nil]%elem_of_cons]%elem_of_cons; done.
  - intros phone [|[|[]%elem_of_nil]%elem_of_cons]%elem_of_cons; done.
Qed.

(** X11.  After [update] has changed the email of a user, the user is
    found under the new email, in any spelling, and no longer under the
    old one: [get_by_email] with the old email raises
    [UserNotFoundError]. *)
Theorem update_email_then_lookup s u patch email r s' :
  table_ok (rows s) → u ∈ rows s →
  UserUpdate.email patch = Some email → email ≠ "" →
  lower email ≠ User.email u →
  UserService.update (User.id u) patch s = (Return r, s') →
  (∀ spelling, lower spelling = lower email →
     (UserService.get_by_email spelling s').1 = Return r)
  ∧ (UserService.get_by_email (User.email u) s').1
    = Raise (UserNotFoundError
               ("User with email " +:+ User.email u +:+ " not found")).
Proof.
  intros Hok Hin He Hne Hd Hrun.
  destruct (update_returned s u patch r s' Hok Hin Hrun)
    as (Hrows & Hp & (A1 & _) & Hok' & Hin').
  specialize (A1 ltac:(lia) email He Hne).
  split.
  - intros spelling Hs.
    unfold UserService.get_by_email, mbind, M_bind.
    rewrite repo_get_by_email_run.
    rewrite (stored_email_lookup_any_case spelling r s'); [done..|].
    by rewrite Hs.
  - unfold UserService.get_by_email, mbind, M_bind.
    rewrite repo_get_by_email_run.
    assert (filter (λ v, User.email v = lower (User.email u)) (rows s') = [])
      as ->; [|done].
    apply (filter_nil_not_taken User.email). intros (v & Hv & Heq).
    destruct Hok as (Hnd & Hem & Hlow & _).
    unfold emails_normalized in Hlow. rewrite Forall_forall in Hlow.
    rewrite (Hlow u Hin) in Heq.
    rewrite Hrows in Hv.
    apply elem_of_store_row_inv in Hv as [->|[Hv Hid]].
    + congruence.
    + apply Hid. rewrite (patched_id _ _ _ _ Hp). f_equal.
      by apply (unique_key_inj User.email (rows s)).
Qed.

(** ** Password change and deletion, continued *)

Lemma elem_of_store_row_other r user table :
  r ∈ table → User.id r ≠ User.id user → r ∈ store_row user table.
Proof.
  intros Hin Hid. unfold store_row. apply list_elem_of_fmap.
  exists r. split; [|done]. by rewrite decide_False.
Qed.

Lemma delete_run u s :
  table_ok (rows s) → u ∈ rows s →
  UserService.delete (User.id u) s
  = (Return tt,
     mkSession (filter (λ r, User.id r ≠ User.id u) (rows s))
       (calls s ++ [CallGetById (User.id u); CallDelete u])).
Proof.
  intros Hok Hin. unfold UserService.delete, mbind, M_bind.
  rewrite stored_get_by_id by done.
  unfold UserRepository.delete; run. by rewrite <- app_assoc.
Qed.

Section more_password_and_delete.
Variable hash_password : string → string.
Variable verify_password : string → string → bool.

(** X12.  With a current password that verifies, [update_password]
    returns the user with the hash of the new password and every other
    column but [updated_at] as before, whether or not the new password
    differs from the current one.  Afterwards the user is found by its
    identifier as returned, every other user is found unchanged, and the
    table has as many rows as before. *)
Theorem update_password_changes_only_hash s u current new :
  table_ok (rows s) → u ∈ rows s →
  verify_password current (User.password_hash u) = true →
  ∃ user s',
    UserService.update_password hash_password verify_password
      (User.id u) current new s
    = (Return user, s')
    ∧ stamped (User.set_password_hash (hash_password new) u) user
    ∧ (UserService.get_by_id (User.id u) s').1 = Return user
    ∧ (∀ r, r ∈ rows s → User.id r ≠ User.id u →
            (UserService.get_by_id (User.id r) s').1 = Return r)
    ∧ length (rows s') = length (rows s).
Proof.
  intros Hok Hin Hv. rewrite update_password_run, Hv by done.
  set (user := written _ _ u).
  pose proof (written_password_hash (logged s (CallGetById (User.id u)))
                (hash_password new) u) as (_ & Hid & Hem & _).
  cbv zeta in Hid, Hem. fold user in Hid, Hem.
  assert (table_ok (store_row user (rows s))) as Hok'
    by (by apply (store_row_table_ok u)).
  eexists _, _. split; [reflexivity|]. split_and!.
  - apply written_stamped.
  - rewrite <- Hid. rewrite stored_get_by_id; simpl;
      [done|done|]. by apply (elem_of_store_row u).
  - intros r Hr Hne. rewrite stored_get_by_id; simpl; [done|done|].
    apply elem_of_store_row_other; [done|]. by rewrite Hid.
  - simpl. unfold store_row. by rewrite length_fmap.
Qed.

End more_password_and_delete.

(** X13.  [delete] of a stored user removes exactly its row: afterwards
    [get_by_id] with its identifier and [get_by_email] with its email raise
    [UserNotFoundError], [verify_credentials] with its email raises
    [UserNotFoundError] for every password, every other user is still
    found by its identifier, and the table has one row less. *)
Theorem delete_then_lookup (verify_password : string → string → bool) s u :
  table_ok (rows s) → u ∈ rows s →
  ∃ s',
    UserService.delete (User.id u) s = (Return tt, s')
    ∧ (∀ password,
         (UserService.verify_credentials verify_password
            (User.email u) password s').1
         = Raise (UserNotFoundError "Invalid email or password"))
    ∧ (UserService.get_by_id (User.id u) s').1
      = Raise (UserNotFoundError
                 ("User with ID " +:+ User.id u +:+ " not found"))
    ∧ (UserService.get_by_email (User.email u) s').1
      = Raise (UserNotFoundError
                 ("User with email " +:+ User.email u +:+ " not found"))
    ∧ (∀ r, r ∈ rows s → User.id r ≠ User.id u →
            (UserService.get_by_id (User.id r) s').1 = Return r)
    ∧ length (rows s) = S (length (rows s')).
Proof.
  intros Hok Hin. rewrite delete_run by done.
  eexists. split; [reflexivity|].
  set (rest := filter (λ r, User.id r ≠ User.id u) (rows s)).
  assert (table_ok rest) as Hok' by (by apply table_ok_filter).
  pose proof Hok as (Hnd & Hem & Hlow & _).
  assert (filter (λ v, User.email v = lower (User.email u)) rest = [])
    as Hgone.
  { apply (filter_nil_not_taken User.email).
    intros (v & [Hid Hv]%list_elem_of_filter & Heq).
    unfold emails_normalized in Hlow. rewrite Forall_forall in Hlow.
    rewrite (Hlow u Hin) in Heq. apply Hid. f_equal.
    by apply (unique_key_inj User.email (rows s)). }
  split_and!.
  - intros password. unfold UserService.verify_credentials, mbind, M_bind.
    rewrite repo_get_by_email_run. simpl. by rewrite Hgone.
  - rewrite service_get_by_id_missing; [done|]. simpl.
    by intros r [Hr _]%list_elem_of_filter.
  - unfold UserService.get_by_email, mbind, M_bind.
    rewrite repo_get_by_email_run. simpl. by rewrite Hgone.
  - intros r Hr Hid. rewrite stored_get_by_id; simpl; [done|done|].
    by apply list_elem_of_filter.
  - simpl.
    pose proof (filter_app_complement (λ r, User.id r = User.id u) (rows s))
      as Hperm.
    apply Permutation_length in Hperm. rewrite length_app in Hperm.
    rewrite (filter_unique_key User.id u (rows s) Hnd Hin) in Hperm.
    simpl in Hperm. fold rest in Hperm. lia.
Qed.

(** ** Phones stay unique *)

Lemma phones_unique_store_row table u user :
  NoDup (User.id <$> table) → u ∈ table →
  phones_unique table →
  User.id user = User.id u →
  (User.phone user = User.phone u
   ∨ ∃ phone, User.phone user = Some phone ∧ ¬ phone_taken phone table) →
  phones_unique (store_row user table).
Proof.
  intros Hnd Hin Hun Hid Hphone.
  assert (∀ r phone, r ∈ table → User.id r ≠ User.id user →
                     User.phone user = Some phone →
                     User.phone r = Some phone → phone ≠ "" → False)
    as Hclash.
  { intros r phone Hr Hne Hpu Hpr Hp.
    destruct Hphone as [Hsame|(p & Hp' & Hfree)].
    - apply Hne. rewrite Hid. apply (Hun r u phone); [done|done|done| |done].
      by rewrite <- Hsame.
    - apply Hfree, Exists_exists. exists r. split; [done|]. congruence. }
  intros r1 r2 phone
    [->|[H1 Hn1]]%elem_of_store_row_inv
    [->|[H2 Hn2]]%elem_of_store_row_inv Hp1 Hp2 Hp.
  - done.
  - exfalso. by apply (Hclash r2 phone).
  - exfalso. by apply (Hclash r1 phone).
  - by apply (Hun r1 r2 phone).
Qed.

Lemma phones_unique_snoc table user :
  phones_unique table →
  (∀ phone, User.phone user = Some phone → phone ≠ "" →
            ¬ phone_taken phone table) →
  phones_unique (table ++ [user]).
Proof.
  intros Hun Hfree r1 r2 phone
    [H1|H1%list_elem_of_singleton]%elem_of_app
    [H2|H2%list_elem_of_singleton]%elem_of_app Hp1 Hp2 Hp; subst.
  - by apply (Hun r1 r2 phone).
  - exfalso. apply (Hfree phone Hp2 Hp), Exists_exists. by exists r1.
  - exfalso. apply (Hfree phone Hp1 Hp), Exists_exists. by exists r2.
  - done.
Qed.

Lemma phones_unique_filter (P : User.t → Prop) `{!∀ r, Decision (P r)}
    table :
  phones_unique table → phones_unique (filter P table).
Proof.
  intros Hun r1 r2 phone [_ H1]%list_elem_of_filter
    [_ H2]%list_elem_of_filter.
  by apply Hun.
Qed.

Section phones.
Variable hash_password : string → string.
Variable verify_password : string → string → bool.

Lemma serve_keeps_phones_unique r s :
  table_ok (rows s) → phones_unique (rows s) →
  phones_unique (rows (serve hash_password verify_password r s)).
Proof.
  intros Hok Hun. pose proof Hok as (Hnd & _). destruct r; simpl.
  - unfold UserService.get_by_id, mbind, M_bind.
    rewrite repo_get_by_id_run.
    by destruct (filter _ (rows s)) as [|u [|u' l]].
  - unfold UserService.get_by_email, mbind, M_bind.
    rewrite repo_get_by_email_run.
    by destruct (filter _ (rows s)) as [|u [|u' l]].
  - done.
  - rewrite create_run; cbv zeta.
    destruct (bool_decide (email_taken _ (rows s))); [done|].
    destruct (bool_decide (store_refuses _ (rows s))).
    { destruct (UserCreate.phone data) as [phone|];
        [destruct (truthy phone);
           [destruct (bool_decide (phone_taken _ (rows s)))|]|]; done. }
    destruct (UserCreate.phone data) as [phone|] eqn:Hp.
    + destruct (truthy phone) eqn:Ht.
      * destruct (bool_decide (phone_taken _ (rows s))) eqn:Hx; [done|].
        apply bool_decide_eq_false in Hx. simpl.
        apply phones_unique_snoc; [done|]. simpl.
        by intros ? [= <-].
      * simpl. apply phones_unique_snoc; [done|]. simpl.
        intros ? [= <-] Hne%truthy_true. congruence.
    + simpl. by apply phones_unique_snoc.
  - destruct (filter_key_cases User.id user_id (rows s) Hnd)
      as [Hnone|(u & Hin & <- & _)].
    + unfold UserService.update, UserService.get_by_id, mbind, M_bind.
      rewrite repo_get_by_id_run, Hnone. done.
    + destruct (update_outcome s u data Hok Hin)
        as (user & new & -> & _ & Hp & _).
      apply (phones_unique_store_row _ u); [done|done|done| |].
      * apply (patched_id _ _ _ _ Hp).
      * destruct (patched_phone _ _ _ _ Hp)
          as [?|(phone & _ & _ & _ & Hfree & Hset)]; [by left|].
        right. by exists phone.
  - destruct (filter_key_cases User.id user_id (rows s) Hnd)
      as [Hnone|(u & Hin & <- & _)].
    + unfold UserService.update_password, UserService.get_by_id,
        mbind, M_bind.
      rewrite repo_get_by_id_run, Hnone. done.
    + rewrite update_password_run by done.
      destruct (verify_password current_password (User.password_hash u));
        [|done].
      pose proof (written_password_hash
                    (logged s (CallGetById (User.id u)))
                    (hash_password new_password) u)
        as (_ & Hid & _ & _ & _ & Hph & _).
      cbv zeta in *. cbn [rows snd].
      apply (phones_unique_store_row _ u); [done|done|done|done|].
      by left.
  - unfold UserService.delete, UserService.get_by_id,
      UserRepository.delete, mbind, M_bind.
    rewrite repo_get_by_id_run.
    destruct (filter _ (rows s)) as [|u [|u' l]]; simpl; [done| |done].
    by apply phones_unique_filter.
  - by rewrite verify_credentials_reads.
Qed.

(** X15.  In every table that the service builds from the empty one, a
    phone that is not empty belongs to one user. *)
Theorem reachable_phones_unique s :
  reachable hash_password verify_password s → phones_unique (rows s).
Proof.
  induction 1 as [|s r Hreach IH Hadm].
  - intros r1 r2 phone Hr1. by apply elem_of_nil in Hr1.
  - apply serve_keeps_phones_unique; [|done].
    by apply (reachable_table_ok hash_password verify_password).
Qed.

(** X14.  [delete] frees the email and the phone of the user: when no
    other user has its phone, a creation with the email of the deleted
    user, in any spelling, and with its phone succeeds after the deletion;
    the new row may even take the identifier of the deleted one, but not
    the identifier of another user. *)
Theorem delete_then_recreate defaults data s u :
  table_ok (rows s) → u ∈ rows s →
  (∀ r phone, r ∈ rows s → User.phone u = Some phone →
              User.phone r = Some phone → User.id r = User.id u) →
  (∀ r, r ∈ rows s → User.id r = User.default_id defaults →
        User.id r = User.id u) →
  lower (UserCreate.email data) = User.email u →
  UserCreate.phone data = User.phone u →
  ∃ user s',
    UserService.create hash_password defaults data
      (UserService.delete (User.id u) s).2 = (Return user, s')
    ∧ User.id user = User.default_id defaults
    ∧ User.email user = User.email u
    ∧ User.phone user = User.phone u.
Proof.
  intros Hok Hin Hun Hids Hemail Hphone. rewrite delete_run by done.
  cbn [snd]. set (s1 := mkSession _ _).
  pose proof Hok as (Hnd & Hem & _).
  destruct (create_accepted hash_password defaults data s1)
    as (s' & Hrun & _).
  - intros (r & Heq & [Hid Hr]%list_elem_of_filter)%list_elem_of_fmap.
    by apply Hid, Hids.
  - intros (r & [Hid Hr]%list_elem_of_filter & Heq)%Exists_exists.
    apply Hid. f_equal. apply (unique_key_inj User.email (rows s));
      [done|done|done|]. congruence.
  - intros phone Hp (r & [Hid Hr]%list_elem_of_filter & Heq)%Exists_exists.
    apply Hid. apply (Hun r phone); [done|congruence|done].
  - eexists _, s'. split_and!; [exact Hrun|done|done|done].
Qed.

End phones.

(** X16.  The service keeps the invariants of the data model.  Every
    request, whatever its outcome, leaves identifiers unique and emails
    unique, lowercase and not empty, provided that a creation gets a fresh
    identifier and an email that is not empty; so the invariants hold in
    every table built from the empty one. *)
Theorem service_keeps_table_ok
    (hash_password : string → string)
    (verify_password : string → string → bool) :
  (∀ r s, table_ok (rows s) → admissible r s →
          table_ok (rows (serve hash_password verify_password r s)))
  ∧ (∀ s, reachable hash_password verify_password s → table_ok (rows s)).
Proof.
  split.
  - intros r s. apply serve_keeps_table_ok.
  - intros s. apply reachable_table_ok.
Qed.

(** ** Listing, continued *)

Lemma list_run page page_size is_active s :
  UserService.list page page_size is_active s
  = (Return
       (offset_limit ((page - 1) * page_size) page_size
          (order_by_created_at_desc (where_is_active is_active (rows s))),
        length (where_is_active is_active (rows s))),
     logged s (CallList ((page - 1) * page_size) page_size is_active)).
Proof. reflexivity. Qed.

Lemma fetch_pages_take n page_size is_active s :
  (0 ≤ page_size)%Z →
  rows (fetch_pages n page_size is_active s).2 = rows s
  ∧ concat (fetch_pages n page_size is_active s).1
    = take (n * Z.to_nat page_size)
        (order_by_created_at_desc (where_is_active is_active (rows s))).
Proof.
  intros Hk. induction n as [|n [IHrows IHcat]]; [done|].
  cbn [fetch_pages].
  destruct (fetch_pages n page_size is_active s) as [pages s1].
  simpl in IHrows, IHcat. rewrite list_run. simpl. rewrite IHrows.
  split; [done|].
  rewrite concat_app, IHcat. simpl. rewrite app_nil_r.
  unfold offset_limit.
  assert (Z.to_nat ((Z.of_nat (S n) - 1) * page_size)
          = n * Z.to_nat page_size)%nat as ->
    by (rewrite Z2Nat.inj_mul by lia; f_equal; lia).
  rewrite take_take_drop. f_equal. lia.
Qed.

(** X17.  Paging covers the listing.  The users that match the filter form
    one sequence, sorted by creation time with the most recent first; the
    pages 1 to [n] of size [page_size], fetched one after the other and
    joined, are the first [n * page_size] users of that sequence, so every
    matching user appears once when the pages reach the end.  A page that
    starts past the end is empty and still reports the total. *)
Theorem list_pages_cover (s : Session) (is_active : option bool) :
  ∃ ordered,
    ordered ≡ₚ filter (matches_active is_active) (rows s)
    ∧ StronglySorted created_desc ordered
    ∧ (∀ (n : nat) (page_size : Z), (0 ≤ page_size)%Z →
         concat (fetch_pages n page_size is_active s).1
         = take (n * Z.to_nat page_size) ordered
         ∧ ((length ordered ≤ n * Z.to_nat page_size)%nat →
            concat (fetch_pages n page_size is_active s).1
            ≡ₚ filter (matches_active is_active) (rows s)))
    ∧ (∀ page page_size : Z, (1 ≤ page)%Z → (0 ≤ page_size)%Z →
         (Z.of_nat (length ordered) ≤ (page - 1) * page_size)%Z →
         (UserService.list page page_size is_active s).1
         = Return ([], length (filter (matches_active is_active) (rows s)))).
Proof.
  exists (order_by_created_at_desc (where_is_active is_active (rows s))).
  assert (order_by_created_at_desc (where_is_active is_active (rows s))
          ≡ₚ filter (matches_active is_active) (rows s)) as Hperm.
  { unfold order_by_created_at_desc.
    by rewrite merge_sort_Permutation, where_is_active_matches. }
  split_and!; [done| | |].
  - apply StronglySorted_merge_sort; apply _.
  - intros n page_size Hk.
    destruct (fetch_pages_take n page_size is_active s Hk) as [_ Hcat].
    split; [done|]. intros Hlen. by rewrite Hcat, take_ge.
  - intros page page_size Hpage Hk Hpast. rewrite list_run. simpl.
    rewrite where_is_active_matches. f_equal. f_equal.
    unfold offset_limit. rewrite drop_ge; [by rewrite take_nil|].
    rewrite <- where_is_active_matches. lia.
Qed.

(** ** Existence checks and lookups agree *)

Lemma filter_phone_cases phone table :
  NoDup (User.id <$> table) → phones_unique table → phone ≠ "" →
  filter (λ r, User.phone r = Some phone) table = []
  ∨ ∃ u, filter (λ r, User.phone r = Some phone) table = [u].
Proof.
  intros Hnd Hun Hne.
  assert (NoDup (User.id <$> filter (λ r, User.phone r = Some phone) table))
    as Hnd'.
  { eapply sublist_NoDup; [exact Hnd|]. apply fmap_sublist, sublist_filter. }
  destruct (filter (λ r, User.phone r = Some phone) table)
    as [|x [|y l]] eqn:Hf; [by left|right; by exists x|].
  exfalso.
  assert (x ∈ filter (λ r, User.phone r = Some phone) table) as Hx
    by (rewrite Hf; left).
  assert (y ∈ filter (λ r, User.phone r = Some phone) table) as Hy
    by (rewrite Hf; right; left).
  apply list_elem_of_filter in Hx as [Hpx Hx].
  apply list_elem_of_filter in Hy as [Hpy Hy].
  simpl in Hnd'. apply NoDup_cons in Hnd' as [Hnot _].
  apply Hnot. rewrite (Hun x y phone Hx Hy Hpx Hpy Hne). left.
Qed.

(** X18.  The existence checks agree with the lookups of the repository.
    In a table with unique emails, [exists_by_email] answers true exactly
    when [get_by_email] returns a user, and [get_by_email] never raises.
    In a table with unique identifiers and unique phones the same holds
    for [exists_by_phone] and [get_by_phone] on a phone that is not
    empty. *)
Theorem exists_agrees_with_get s :
  table_ok (rows s) →
  (∀ email,
     ((UserRepository.exists_by_email email s).1 = Return true
      ∧ ∃ u, (UserRepository.get_by_email email s).1 = Return (Some u))
     ∨ ((UserRepository.exists_by_email email s).1 = Return false
        ∧ (UserRepository.get_by_email email s).1 = Return None))
  ∧ (phones_unique (rows s) →
     ∀ phone, phone ≠ "" →
       ((UserRepository.exists_by_phone phone s).1 = Return true
        ∧ ∃ u, (UserRepository.get_by_phone phone s).1 = Return (Some u))
       ∨ ((UserRepository.exists_by_phone phone s).1 = Return false
          ∧ (UserRepository.get_by_phone phone s).1 = Return None)).
Proof.
  intros (Hnd & Hem & _). split.
  - intros email.
    rewrite repo_exists_by_email_run, repo_get_by_email_run. simpl.
    destruct (filter_key_cases User.email (lower email) (rows s) Hem)
      as [Hnone|(u & Hin & Heq & Hone)].
    + right. rewrite Hnone. split; [|done].
      rewrite bool_decide_eq_false_2; [done|].
      apply (filter_nil_not_taken User.email) in Hnone.
      unfold email_taken. by rewrite Exists_exists.
    + left. rewrite Hone. split; [|by exists u].
      rewrite bool_decide_eq_true_2; [done|].
      apply Exists_exists. by exists u.
  - intros Hun phone Hne.
    rewrite repo_exists_by_phone_run, repo_get_by_phone_run. simpl.
    destruct (filter_phone_cases phone (rows s) Hnd Hun Hne)
      as [Hnone|(u & Hone)].
    + right. rewrite Hnone. split; [|done].
      rewrite bool_decide_eq_false_2; [done|].
      apply (filter_nil_not_taken User.phone) in Hnone.
      unfold phone_taken. by rewrite Exists_exists.
    + left. rewrite Hone. split; [|by exists u].
      rewrite bool_decide_eq_true_2; [done|].
      assert (u ∈ filter (λ r, User.phone r = Some phone) (rows s)) as Hu
        by (rewrite Hone; left).
      apply list_elem_of_filter in Hu as [Hp Hu].
      apply Exists_exists. by exists u.
Qed.

(** X19.  The active filter splits the listing.  On every page, the items
    listed with the filter [true] are stored users that are active, the
    items listed with the filter [false] are stored users that are not,
    and the two totals add up to the total without filter, which is the
    number of rows. *)
Theorem list_filter_partition s (page page_size : Z) :
  ∃ actives inactives everyone (n_active n_inactive n_all : nat),
    (UserService.list page page_size (Some true) s).1
    = Return (actives, n_active)
    ∧ (UserService.list page page_size (Some false) s).1
      = Return (inactives, n_inactive)
    ∧ (UserService.list page page_size None s).1 = Return (everyone, n_all)
    ∧ (n_active + n_inactive = n_all)%nat
    ∧ n_all = length (rows s)
    ∧ (∀ u, u ∈ actives → User.is_active u = true ∧ u ∈ rows s)
    ∧ (∀ u, u ∈ inactives → User.is_active u = false ∧ u ∈ rows s)
    ∧ (∀ u, u ∈ everyone → u ∈ rows s).
Proof.
  assert (∀ f u,
    u ∈ offset_limit ((page - 1) * page_size) page_size
          (order_by_created_at_desc (where_is_active f (rows s))) →
    u ∈ where_is_active f (rows s)) as Hsub.
  { intros f u Hu. unfold offset_limit, order_by_created_at_desc in Hu.
    apply subseteq_take, subseteq_drop in Hu.
    by rewrite merge_sort_Permutation in Hu. }
  eexists _, _, _, _, _, _. rewrite !list_run. simpl.
  split_and!; [reflexivity|reflexivity|reflexivity| |done|..].
  - pose proof (filter_app_complement (λ u, User.is_active u = true) (rows s))
      as Hperm.
    apply Permutation_length in Hperm. rewrite length_app in Hperm.
    rewrite <- Hperm. f_equal. f_equal. apply list_filter_iff.
    intros u. by destruct (User.is_active u).
  - intros u Hu. apply (Hsub (Some true)) in Hu. simpl in Hu.
    by apply list_elem_of_filter in Hu.
  - intros u Hu. apply (Hsub (Some false)) in Hu. simpl in Hu.
    by apply list_elem_of_filter in Hu.
  - intros u Hu. by apply (Hsub None) in Hu.
Qed.

(** ** Deactivation and login *)

(** X20.  The active flag set through [update] decides the next login.
    When [update] returns for a patch that carries [is_active], a
    [verify_credentials] with the email of the returned entity and a
    password that verifies against the stored hash returns the entity if
    the flag is true and raises [UserServiceError] if it is false. *)
Theorem update_is_active_then_login
    (verify_password : string → string → bool) s u patch flag r s' password :
  table_ok (rows s) → u ∈ rows s →
  UserUpdate.is_active patch = Some flag →
  verify_password password (User.password_hash u) = true →
  UserService.update (User.id u) patch s = (Return r, s') →
  (UserService.verify_credentials verify_password
     (User.email r) password s').1
  = if flag then Return r
    else Raise (UserServiceError "User account is deactivated").
Proof.
  intros Hok Hin Hflag Hv Hrun.
  destruct (update_returned s u patch r s' Hok Hin Hrun)
    as (Hrows & Hp & (_ & _ & _ & _ & _ & A6) & Hok' & Hin').
  specialize (A6 ltac:(lia) flag Hflag).
  unfold UserService.verify_credentials, mbind, M_bind.
  rewrite repo_get_by_email_run, (stored_email_lookup r s') by done.
  rewrite (patched_password_hash _ _ _ _ Hp), Hv, A6. simpl.
  by destruct flag.
Qed.


End properties.

(** * The service on the demonstration table *)

Section demonstration.
#[local] Existing Instance demo_lower.
#[local] Existing Instance demo_lower_laws.
#[local] Existing Instance demo_onupdate.

Lemma demo_table_ok : table_ok (rows demo_session).
Proof. apply (bool_decide_unpack _). vm_compute. exact I. Qed.


Lemma demo_primitive_exact :
  password_primitive_exact demo_hash_password demo_verify_password.
Proof.
  intros password candidate.
  unfold demo_verify_password, demo_hash_password.
  rewrite bool_decide_eq_true. simpl. split.
  - intros [= Heq]. by symmetry.
  - by intros ->.
Qed.

Lemma verify_credentials_checks_witness :
  table_ok (rows demo_session)
  ∧ demo_dora ∈ rows demo_session
  ∧ User.is_active demo_dora = false
  ∧ demo_verify_password "dora-pass-3" (User.password_hash demo_dora) = true
  ∧ (UserService.verify_credentials demo_verify_password
       (User.email demo_dora) "dora-pass-3" demo_session).1
    = Raise (UserServiceError "User account is deactivated").
Proof.
  assert (demo_dora ∈ rows demo_session) as Hin by (do 2 right; left).
  split_and!; [exact demo_table_ok|exact Hin|reflexivity|reflexivity|].
  apply (proj2 (verify_credentials_checks demo_verify_password
                  demo_session "dora-pass-3") demo_dora);
    [exact demo_table_ok|exact Hin|reflexivity|reflexivity].
Defined.

Lemma create_duplicate_email_witness :
  emails_normalized (rows demo_session)
  ∧ demo_bob ∈ rows demo_session
  ∧ lower (User.email demo_bob) = lower (UserCreate.email demo_create_clash)
  ∧ (UserService.create demo_hash_password demo_defaults
       demo_create_clash demo_session).1
    = Raise (UserAlreadyExistsError
               "User with email Bob@Example.COM already exists")
  ∧ rows (UserService.create demo_hash_password demo_defaults
            demo_create_clash demo_session).2
    = rows demo_session
  ∧ UserCreate.email demo_create_alice = "Alice@Example.com"
  ∧ (User.default_id demo_defaults ∉ User.id <$> rows demo_session_others)
  ∧ ¬ email_taken "Alice@Example.com" (rows demo_session_others)
  ∧ (∀ phone, UserCreate.phone demo_create_alice = Some phone →
              ¬ phone_taken phone (rows demo_session_others))
  ∧ UserCreate.email demo_create_alice_again = "alice@example.com"
  ∧ ∃ user_a s_a,
      UserService.create demo_hash_password demo_defaults
        demo_create_alice demo_session_others = (Return user_a, s_a)
      ∧ User.email user_a = "alice@example.com"
      ∧ (UserRepository.exists_by_email "alice@example.com" s_a).1
        = Return true
      ∧ (UserService.create demo_hash_password demo_defaults_next
           demo_create_alice_again s_a).1
        = Raise (UserAlreadyExistsError
                   "User with email alice@example.com already exists")
      ∧ rows (UserService.create demo_hash_password demo_defaults_next
                demo_create_alice_again s_a).2
        = rows s_a.
Proof.
  assert (demo_bob ∈ rows demo_session) as Hin by (right; left).
  pose proof demo_table_ok as (_ & _ & Hlow & _).
  assert (User.default_id demo_defaults ∉ User.id <$> rows demo_session_others)
    as Hid by (apply (bool_decide_unpack _); by vm_compute).
  assert (¬ email_taken "Alice@Example.com" (rows demo_session_others))
    as Hfree by (apply (bool_decide_unpack _); by vm_compute).
  assert (∀ phone, UserCreate.phone demo_create_alice = Some phone →
                   ¬ phone_taken phone (rows demo_session_others))
    as Hphone.
  { intros phone [= <-]. apply (bool_decide_unpack _). by vm_compute. }
  destruct (proj1 (proj2 (create_duplicate_email demo_hash_password))
              demo_defaults demo_create_alice demo_session_others
              eq_refl Hid Hfree Hphone)
    as (user_a & s_a & Hrun & Hemail).
  destruct (proj2 (proj2 (create_duplicate_email demo_hash_password))
              demo_defaults demo_create_alice demo_session_others
              user_a s_a eq_refl Hrun)
    as (Hexists & Hagain).
  destruct (Hagain demo_defaults_next demo_create_alice_again eq_refl)
    as (Hraise & Hrows).
  split_and!; [exact Hlow|exact Hin|reflexivity|..|exact Hid|exact Hfree
              |exact Hphone|reflexivity|];
    [apply (proj1 (create_duplicate_email demo_hash_password)
              demo_defaults demo_create_clash demo_session demo_bob);
       [exact Hlow|exact Hin|reflexivity]..|reflexivity|].
  exists user_a, s_a.
  split_and!; [exact Hrun|exact Hemail|exact Hexists|exact Hraise
              |exact Hrows].
Defined.

Lemma list_page_witness :
  ∃ ordered items,
    ordered ≡ₚ filter (matches_active (Some true)) (rows demo_session)
    ∧ StronglySorted created_desc ordered
    ∧ (1 ≤ 2)%Z ∧ (0 ≤ 1)%Z
    ∧ (UserService.list 2 1 (Some true) demo_session).1
      = Return (items, 2%nat)
    ∧ items = take 1 (drop 1 ordered).
Proof.
  destruct (list_page demo_session (Some true))
    as (ordered & Hperm & Hsorted & Hpage & _).
  destruct (Hpage 2%Z 1%Z) as (items & Hrun & Hitems & _); [lia|lia|].
  exists ordered, items.
  split_and!; [exact Hperm|exact Hsorted|lia|lia| |exact Hitems].
  rewrite Hrun. reflexivity.
Defined.

Lemma update_password_wrong_current_witness :
  table_ok (rows demo_session)
  ∧ demo_alice ∈ rows demo_session
  ∧ demo_verify_password "not-her-pass" (User.password_hash demo_alice)
    = false
  ∧ (UserService.update_password demo_hash_password demo_verify_password
       "u1" "not-her-pass" "alice-pass-2" demo_session).1
    = Raise (InvalidPasswordError "Current password is incorrect")
  ∧ rows (UserService.update_password demo_hash_password
            demo_verify_password "u1" "not-her-pass" "alice-pass-2"
            demo_session).2
    = rows demo_session.
Proof.
  assert (demo_alice ∈ rows demo_session) as Hin by left.
  destruct (update_password_wrong_current demo_hash_password
              demo_verify_password demo_session demo_alice
              "not-her-pass" "alice-pass-2" demo_table_ok Hin eq_refl)
    as (Hraise & Hrows & _).
  split_and!; [exact demo_table_ok|exact Hin|reflexivity
              |exact Hraise|exact Hrows].
Defined.

Lemma update_password_then_verify_witness :
  password_primitive_exact demo_hash_password demo_verify_password
  ∧ table_ok (rows demo_session)
  ∧ demo_alice ∈ rows demo_session
  ∧ User.is_active demo_alice = true
  ∧ "alice-pass-1" ≠ "alice-pass-2"
  ∧ ∃ user' s',
      UserService.update_password demo_hash_password
        demo_verify_password "u1" "alice-pass-1" "alice-pass-2"
        demo_session = (Return user', s')
      ∧ User.password_hash user' = demo_hash_password "alice-pass-2"
      ∧ (UserService.verify_credentials demo_verify_password
           "alice@example.com" "alice-pass-2" s').1
        = Return user'
      ∧ (UserService.verify_credentials demo_verify_password
           "alice@example.com" "alice-pass-1" s').1
        = Raise (InvalidPasswordError "Invalid email or password").
Proof.
  assert (demo_alice ∈ rows demo_session) as Hin by left.
  assert ("alice-pass-1" ≠ "alice-pass-2") as Hne by discriminate.
  split_and!; [exact demo_primitive_exact|exact demo_table_ok|exact Hin
              |reflexivity|exact Hne|].
  destruct (UserService.update_password demo_hash_password
              demo_verify_password "u1" "alice-pass-1" "alice-pass-2"
              demo_session) as [[user'|e] s'] eqn:Hrun;
    [|vm_compute in Hrun; discriminate Hrun].
  destruct (update_password_then_verify demo_hash_password
              demo_verify_password demo_session demo_alice
              "alice-pass-1" "alice-pass-2" user' s'
              demo_primitive_exact demo_table_ok Hin eq_refl Hne Hrun)
    as [Hnew Hold].
  exists user', s'.
  split_and!; [reflexivity| |exact Hnew|exact Hold].
  vm_compute in Hrun. by injection Hrun as <- _.
Defined.

Lemma update_email_uniqueness_witness :
  table_ok (rows demo_session)
  ∧ demo_alice ∈ rows demo_session
  ∧ UserUpdate.email demo_patch_bob_email = Some "BOB@example.com"
  ∧ demo_bob ∈ rows demo_session
  ∧ User.id demo_bob ≠ User.id demo_alice
  ∧ lower "BOB@example.com" = User.email demo_bob
  ∧ (UserService.update "u1" demo_patch_bob_email demo_session).1
    = Raise (UserAlreadyExistsError
               "User with email BOB@example.com already exists")
  ∧ rows (UserService.update "u1" demo_patch_bob_email demo_session).2
    = rows demo_session
  ∧ UserUpdate.email demo_patch_own_email_own_phone
    = Some "ALICE@EXAMPLE.COM"
  ∧ lower "ALICE@EXAMPLE.COM" = User.email demo_alice
  ∧ (∀ phone, UserUpdate.phone demo_patch_own_email_own_phone = Some phone →
              phone = "" ∨ Some phone = User.phone demo_alice)
  ∧ ∃ user new,
      (UserService.update "u1" demo_patch_own_email_own_phone
         demo_session).1 = Return user
      ∧ User.email user = "alice@example.com"
      ∧ calls (UserService.update "u1" demo_patch_own_email_own_phone
                 demo_session).2
        = calls demo_session ++ new
      ∧ (∀ e, CallExistsByEmail e ∉ new)
      ∧ (∀ p, CallExistsByPhone p ∉ new).
Proof.
  assert (demo_alice ∈ rows demo_session) as Hin by left.
  assert (demo_bob ∈ rows demo_session) as Hbob by (right; left).
  assert (User.id demo_bob ≠ User.id demo_alice) as Hid by discriminate.
  assert (∀ phone,
            UserUpdate.phone demo_patch_own_email_own_phone = Some phone →
            phone = "" ∨ Some phone = User.phone demo_alice) as Hphone.
  { intros phone [= <-]. by right. }
  destruct (proj1 (update_email_uniqueness demo_session demo_alice
                     demo_patch_bob_email "BOB@example.com"
                     demo_table_ok Hin eq_refl)
              demo_bob Hbob Hid eq_refl)
    as (Hraise & Hrows & _).
  destruct (proj2 (update_email_uniqueness demo_session demo_alice
                     demo_patch_own_email_own_phone "ALICE@EXAMPLE.COM"
                     demo_table_ok Hin eq_refl) eq_refl)
    as (user & new & _ & Hemail & Hcalls & Hnoe & Hsucc).
  destruct (Hsucc Hphone) as [Hret Hnop].
  split_and!; [exact demo_table_ok|exact Hin|reflexivity|exact Hbob
              |exact Hid|reflexivity|exact Hraise|exact Hrows
              |reflexivity|reflexivity|exact Hphone|].
  exists user, new.
  split_and!; [exact Hret|exact Hemail|exact Hcalls|exact Hnoe|exact Hnop].
Defined.

Lemma create_fresh_succeeds_witness :
  (User.default_id demo_defaults ∉ User.id <$> rows demo_session)
  ∧ (∀ u, u ∈ rows demo_session →
          lower (User.email u) ≠ lower (UserCreate.email demo_create_fresh))
  ∧ (∀ u phone, u ∈ rows demo_session →
                UserCreate.phone demo_create_fresh = Some phone →
                User.phone u ≠ Some phone)
  ∧ ∃ user s',
      UserService.create demo_hash_password demo_defaults
        demo_create_fresh demo_session = (Return user, s')
      ∧ User.email user = "erin@example.com"
      ∧ rows s' = rows demo_session ++ [user].
Proof.
  assert (User.default_id demo_defaults ∉ User.id <$> rows demo_session)
    as Hid by (apply (bool_decide_unpack _); by vm_compute).
  assert (∀ u, u ∈ rows demo_session →
               lower (User.email u)
               ≠ lower (UserCreate.email demo_create_fresh)) as Hemail.
  { apply Forall_forall. repeat constructor; discriminate. }
  assert (∀ u phone, u ∈ rows demo_session →
                     UserCreate.phone demo_create_fresh = Some phone →
                     User.phone u ≠ Some phone) as Hphone.
  { intros u phone Hu [= <-]. revert u Hu.
    apply Forall_forall. repeat constructor; discriminate. }
  split_and!; [exact Hid|exact Hemail|exact Hphone|].
  exact (create_fresh_succeeds demo_hash_password demo_defaults
           demo_create_fresh demo_session Hid Hemail Hphone).
Defined.

Lemma create_checks_email_first_witness :
  emails_normalized (rows demo_session)
  ∧ demo_bob ∈ rows demo_session
  ∧ lower (User.email demo_bob) = lower (UserCreate.email demo_create_clash)
  ∧ phone_taken "076222222" (rows demo_session)
  ∧ (UserService.create demo_hash_password demo_defaults
       demo_create_clash demo_session).1
    = Raise (UserAlreadyExistsError
               "User with email Bob@Example.COM already exists")
  ∧ calls (UserService.create demo_hash_password demo_defaults
             demo_create_clash demo_session).2
    = [CallExistsByEmail "Bob@Example.COM"].
Proof.
  assert (demo_bob ∈ rows demo_session) as Hin by (right; left).
  pose proof demo_table_ok as (_ & _ & Hlow & _).
  destruct (proj2 (create_checks_email_first demo_hash_password
                     demo_defaults demo_create_clash demo_session)
              demo_bob Hlow Hin eq_refl)
    as (Hraise & Hcalls & _).
  split_and!; [exact Hlow|exact Hin|reflexivity| |exact Hraise|exact Hcalls].
  apply Exists_cons_tl, Exists_cons_hd. reflexivity.
Defined.

Lemma update_partial_witness :
  table_ok (rows demo_session)
  ∧ demo_alice ∈ rows demo_session
  ∧ (UserService.update "u1" UserUpdate.empty demo_session).1
    = Return demo_alice
  ∧ rows (UserService.update "u1" UserUpdate.empty demo_session).2
    = rows demo_session.
Proof.
  assert (demo_alice ∈ rows demo_session) as Hin by left.
  destruct (update_partial demo_session demo_alice demo_patch_name
              demo_table_ok Hin) as [Hempty _].
  split_and!; [exact demo_table_ok|exact Hin|..];
    change (User.id demo_alice) with "u1" in Hempty; by rewrite Hempty.
Defined.

Lemma update_truthiness_witness :
  table_ok (rows demo_session)
  ∧ demo_alice ∈ rows demo_session
  ∧ UserUpdate.phone demo_patch_blank_phone = Some ""
  ∧ ∃ user new,
      (UserService.update "u1" demo_patch_blank_phone demo_session).1
      = Return user
      ∧ calls (UserService.update "u1" demo_patch_blank_phone
                 demo_session).2 = calls demo_session ++ new
      ∧ User.phone user = Some "076111111"
      ∧ ∀ phone, CallExistsByPhone phone ∉ new.
Proof.
  assert (demo_alice ∈ rows demo_session) as Hin by left.
  destruct (update_truthiness demo_session demo_alice
              demo_patch_blank_phone demo_table_ok Hin)
    as (user & new & _ & Hret & Hcalls & _ & Hphone & _).
  destruct Hphone as [Hsame Hnocheck]; [by right|].
  split_and!; [exact demo_table_ok|exact Hin|reflexivity|].
  exists user, new. split_and!; [|exact Hcalls|exact Hsame|exact Hnocheck].
  by rewrite <- (Hret demo_alice eq_refl).
Defined.

(** ** The further properties on the demonstration table *)

Lemma demo_phones_unique : phones_unique (rows demo_session).
Proof.
  intros r1 r2 phone H1 H2 Hp1 Hp2 Hne. cbn in H1, H2.
  repeat match goal with
         | H : _ ∈ _ :: _ |- _ => apply elem_of_cons in H as [->|H]
         | H : _ ∈ [] |- _ => by apply elem_of_nil in H
         end; simpl in *; congruence.
Qed.

Lemma missing_user_not_found_witness :
  (∀ r, r ∈ rows demo_session → User.id r ≠ "u9")
  ∧ UserService.delete "u9" demo_session
    = (Raise (UserNotFoundError "User with ID u9 not found"),
       logged demo_session (CallGetById "u9")).
Proof.
  assert (∀ r, r ∈ rows demo_session → User.id r ≠ "u9") as Hno.
  { apply Forall_forall. repeat constructor; discriminate. }
  split; [exact Hno|].
  exact (proj1 (proj2 (proj2 (proj2
           (missing_user_not_found demo_hash_password demo_verify_password
              "u9" demo_session Hno))))).
Defined.

Lemma email_lookups_ignore_case_witness :
  table_ok (rows demo_session)
  ∧ demo_bob ∈ rows demo_session
  ∧ lower "Bob@EXAMPLE.com" = User.email demo_bob
  ∧ (UserService.get_by_email "Bob@EXAMPLE.com" demo_session).1
    = Return demo_bob
  ∧ (UserService.verify_credentials demo_verify_password
       "Bob@EXAMPLE.com" "bob-pass-22" demo_session).1 = Return demo_bob.
Proof.
  assert (demo_bob ∈ rows demo_session) as Hin by (right; left).
  destruct (proj1 (email_lookups_ignore_case demo_verify_password
                     demo_session)
              demo_bob "Bob@EXAMPLE.com" demo_table_ok Hin eq_refl)
    as (Hget & _ & Hlogin).
  split_and!; [exact demo_table_ok|exact Hin|reflexivity|exact Hget|].
  apply Hlogin; reflexivity.
Defined.

Lemma create_then_lookup_witness :
  table_ok (rows demo_session)
  ∧ UserCreate.email demo_create_fresh ≠ ""
  ∧ ∃ user s',
      UserService.create demo_hash_password demo_defaults
        demo_create_fresh demo_session = (Return user, s')
      ∧ (UserService.get_by_id "u4" s').1 = Return user
      ∧ (UserService.get_by_email "ERIN@example.com" s').1 = Return user.
Proof.
  assert (UserCreate.email demo_create_fresh ≠ "") as Hne by discriminate.
  split_and!; [exact demo_table_ok|exact Hne|].
  destruct (UserService.create demo_hash_password demo_defaults
              demo_create_fresh demo_session) as [[user|e] s'] eqn:Hrun;
    [|vm_compute in Hrun; discriminate Hrun].
  destruct (create_then_lookup demo_hash_password demo_defaults
              demo_create_fresh demo_session user s'
              demo_table_ok Hne Hrun) as (Hid & Hemail & _).
  assert (User.id user = "u4") as Hu4
    by (vm_compute in Hrun; by injection Hrun as <- _).
  exists user, s'. rewrite <- Hu4.
  split_and!; [reflexivity|exact Hid|]. by apply Hemail.
Defined.

Lemma create_then_login_witness :
  table_ok (rows demo_session)
  ∧ admissible (ReqCreate demo_defaults demo_create_fresh) demo_session
  ∧ demo_verify_password "erin-pass-5" (demo_hash_password "erin-pass-5")
    = true
  ∧ ∃ user s',
      UserService.create demo_hash_password demo_defaults
        demo_create_fresh demo_session = (Return user, s')
      ∧ (UserService.verify_credentials demo_verify_password
           "Erin@Example.com" "erin-pass-5" s').1 = Return user.
Proof.
  assert (admissible (ReqCreate demo_defaults demo_create_fresh)
            demo_session) as Hadm.
  { split; [discriminate|]. apply (bool_decide_unpack _). by vm_compute. }
  split_and!; [exact demo_table_ok|exact Hadm|reflexivity|].
  destruct (UserService.create demo_hash_password demo_defaults
              demo_create_fresh demo_session) as [[user|e] s'] eqn:Hrun;
    [|vm_compute in Hrun; discriminate Hrun].
  exists user, s'. split; [reflexivity|].
  exact (create_then_login demo_hash_password demo_verify_password
           demo_defaults demo_create_fresh demo_session user s'
           demo_table_ok Hadm eq_refl Hrun).
Defined.

Lemma create_phone_taken_witness :
  ¬ email_taken (UserCreate.email demo_create_bob_phone) (rows demo_session)
  ∧ UserCreate.phone demo_create_bob_phone = Some "076222222"
  ∧ "076222222" ≠ ""
  ∧ phone_taken "076222222" (rows demo_session)
  ∧ (UserService.create demo_hash_password demo_defaults
       demo_create_bob_phone demo_session).1
    = Raise (UserAlreadyExistsError
               "User with phone 076222222 already exists").
Proof.
  assert (¬ email_taken (UserCreate.email demo_create_bob_phone)
            (rows demo_session)) as Hfree
    by (apply (bool_decide_unpack _); by vm_compute).
  assert ("076222222" ≠ "") as Hne by discriminate.
  assert (phone_taken "076222222" (rows demo_session)) as Htaken
    by (apply Exists_cons_tl, Exists_cons_hd; reflexivity).
  split_and!; [exact Hfree|reflexivity|exact Hne|exact Htaken|].
  by rewrite (create_phone_taken demo_hash_password demo_defaults
                demo_create_bob_phone demo_session "076222222"
                Hfree eq_refl Hne Htaken).
Defined.

Lemma create_blank_phone_unchecked_witness :
  ¬ email_taken (UserCreate.email demo_create_blank)
      (rows demo_session_blank)
  ∧ UserCreate.phone demo_create_blank = Some ""
  ∧ phone_taken "" (rows demo_session_blank)
  ∧ (∀ p, CallExistsByPhone p
          ∉ calls (UserService.create demo_hash_password demo_defaults
                     demo_create_blank demo_session_blank).2)
  ∧ (UserService.create demo_hash_password demo_defaults
       demo_create_blank demo_session_blank).1 = Raise IntegrityError
  ∧ rows (UserService.create demo_hash_password demo_defaults
            demo_create_blank demo_session_blank).2
    = rows demo_session_blank
  ∧ ¬ email_taken (UserCreate.email demo_create_blank) (rows demo_session)
  ∧ (User.default_id demo_defaults ∉ User.id <$> rows demo_session)
  ∧ ¬ phone_taken "" (rows demo_session)
  ∧ ∃ user,
      (UserService.create demo_hash_password demo_defaults
         demo_create_blank demo_session).1 = Return user
      ∧ User.phone user = Some ""
      ∧ rows (UserService.create demo_hash_password demo_defaults
                demo_create_blank demo_session).2
        = rows demo_session ++ [user].
Proof.
  assert (¬ email_taken (UserCreate.email demo_create_blank)
            (rows demo_session_blank)) as Hfree
    by (apply (bool_decide_unpack _); by vm_compute).
  assert (phone_taken "" (rows demo_session_blank)) as Htaken
    by (apply Exists_cons_tl, Exists_cons_hd; reflexivity).
  assert (¬ email_taken (UserCreate.email demo_create_blank)
            (rows demo_session)) as Hfree'
    by (apply (bool_decide_unpack _); by vm_compute).
  assert (User.default_id demo_defaults ∉ User.id <$> rows demo_session)
    as Hid by (apply (bool_decide_unpack _); by vm_compute).
  assert (¬ phone_taken "" (rows demo_session)) as Hnone
    by (apply (bool_decide_unpack _); by vm_compute).
  destruct (create_blank_phone_unchecked demo_hash_password demo_defaults
              demo_create_blank demo_session_blank Hfree eq_refl)
    as (Hcalls & Hrefused & _).
  destruct (Hrefused Htaken) as [Hraise Hrows].
  destruct (create_blank_phone_unchecked demo_hash_password demo_defaults
              demo_create_blank demo_session Hfree' eq_refl)
    as (_ & _ & Haccepted).
  destruct (Haccepted Hid Hnone) as [Hret Hadded].
  split_and!; [exact Hfree|reflexivity|exact Htaken| |exact Hraise
              |exact Hrows|exact Hfree'|exact Hid|exact Hnone|].
  - intros p. rewrite Hcalls.
    intros [|[|[]%elem_of_nil]%elem_of_cons]%elem_of_cons; discriminate.
  - eexists. split_and!; [exact Hret|reflexivity|exact Hadded].
Defined.

Lemma update_applies_patch_witness :
  table_ok (rows demo_session)
  ∧ demo_alice ∈ rows demo_session
  ∧ ∃ r s',
      UserService.update "u1" demo_patch_new_email demo_session
      = (Return r, s')
      ∧ User.email r = "alice.new@example.com"
      ∧ User.last_name r = "Abiola-Cole"
      ∧ (UserService.get_by_id "u1" s').1 = Return r.
Proof.
  assert (demo_alice ∈ rows demo_session) as Hin by left.
  split_and!; [exact demo_table_ok|exact Hin|].
  destruct (UserService.update "u1" demo_patch_new_email demo_session)
    as [[r|e] s'] eqn:Hrun; [|vm_compute in Hrun; discriminate Hrun].
  destruct (update_applies_patch demo_session demo_alice
              demo_patch_new_email r s' demo_table_ok Hin Hrun)
    as (Hemail & _ & _ & Hlast & _ & _ & _ & Hget).
  exists r, s'. split_and!; [reflexivity| | |exact Hget].
  - by apply (Hemail "Alice.New@Example.com").
  - by apply Hlast.
Defined.

Lemma update_phone_taken_witness :
  table_ok (rows demo_session)
  ∧ demo_alice ∈ rows demo_session
  ∧ UserUpdate.phone demo_patch_bob_phone = Some "076222222"
  ∧ "076222222" ≠ ""
  ∧ Some "076222222" ≠ User.phone demo_alice
  ∧ phone_taken "076222222" (rows demo_session)
  ∧ (UserService.update "u1" demo_patch_bob_phone demo_session).1
    = Raise (UserAlreadyExistsError
               "User with phone 076222222 already exists").
Proof.
  assert (demo_alice ∈ rows demo_session) as Hin by left.
  assert ("076222222" ≠ "") as Hne by discriminate.
  assert (Some "076222222" ≠ User.phone demo_alice) as Hd by discriminate.
  assert (phone_taken "076222222" (rows demo_session)) as Htaken
    by (apply Exists_cons_tl, Exists_cons_hd; reflexivity).
  split_and!; [exact demo_table_ok|exact Hin|reflexivity|exact Hne
              |exact Hd|exact Htaken|].
  apply (update_phone_taken demo_session demo_alice demo_patch_bob_phone
           "076222222" demo_table_ok Hin);
    [intros email Hemail; discriminate Hemail|reflexivity|exact Hne
    |exact Hd|exact Htaken].
Defined.

Lemma update_refused_after_email_assigned_witness :
  table_ok (rows demo_session)
  ∧ demo_alice ∈ rows demo_session
  ∧ ¬ email_taken "Alice.New@Example.com" (rows demo_session)
  ∧ phone_taken "076222222" (rows demo_session)
  ∧ ∃ user,
      (UserService.update "u1" demo_patch_new_email_bob_phone
         demo_session).1
      = Raise (UserAlreadyExistsError
                 "User with phone 076222222 already exists")
      ∧ filter (λ r, User.id r = "u1")
          (rows (UserService.update "u1" demo_patch_new_email_bob_phone
                   demo_session).2)
        = [user]
      ∧ User.email user = "alice.new@example.com"
      ∧ User.phone user = User.phone demo_alice.
Proof.
  assert (demo_alice ∈ rows demo_session) as Hin by left.
  assert (¬ email_taken "Alice.New@Example.com" (rows demo_session))
    as Hfree by (apply (bool_decide_unpack _); by vm_compute).
  assert (phone_taken "076222222" (rows demo_session)) as Htaken
    by (apply Exists_cons_tl, Exists_cons_hd; reflexivity).
  destruct (update_refused_after_email_assigned demo_session demo_alice
              demo_patch_new_email_bob_phone "Alice.New@Example.com"
              "076222222" demo_table_ok Hin eq_refl)
    as (user & Hrun & Hrow & Hemail & Hst);
    [discriminate|discriminate|exact Hfree|reflexivity|discriminate
    |discriminate|exact Htaken|].
  split_and!; [exact demo_table_ok|exact Hin|exact Hfree|exact Htaken|].
  exists user. change (User.id demo_alice) with "u1" in Hrun.
  split_and!; [by rewrite Hrun| |exact Hemail|].
  - rewrite Hrun. exact Hrow.
  - unfold stamped in Hst. by rewrite Hst.
Defined.

Lemma update_idempotent_witness :
  table_ok (rows demo_session)
  ∧ demo_alice ∈ rows demo_session
  ∧ ∃ r s' s'',
      UserService.update "u1" demo_patch_new_email demo_session
      = (Return r, s')
      ∧ UserService.update "u1" demo_patch_new_email s' = (Return r, s'')
      ∧ rows s'' = rows s'.
Proof.
  assert (demo_alice ∈ rows demo_session) as Hin by left.
  split_and!; [exact demo_table_ok|exact Hin|].
  destruct (UserService.update "u1" demo_patch_new_email demo_session)
    as [[r|e] s'] eqn:Hrun; [|vm_compute in Hrun; discriminate Hrun].
  destruct (update_idempotent demo_session demo_alice demo_patch_new_email
              r s' demo_table_ok Hin Hrun)
    as (s'' & new & Hagain & Hrows & _).
  by exists r, s', s''.
Defined.

Lemma update_email_then_lookup_witness :
  table_ok (rows demo_session)
  ∧ demo_alice ∈ rows demo_session
  ∧ UserUpdate.email demo_patch_new_email = Some "Alice.New@Example.com"
  ∧ lower "Alice.New@Example.com" ≠ User.email demo_alice
  ∧ ∃ r s',
      UserService.update "u1" demo_patch_new_email demo_session
      = (Return r, s')
      ∧ (UserService.get_by_email "ALICE.NEW@example.com" s').1 = Return r
      ∧ (UserService.get_by_email "alice@example.com" s').1
        = Raise (UserNotFoundError
                   "User with email alice@example.com not found").
Proof.
  assert (demo_alice ∈ rows demo_session) as Hin by left.
  assert (lower "Alice.New@Example.com" ≠ User.email demo_alice) as Hd
    by discriminate.
  split_and!; [exact demo_table_ok|exact Hin|reflexivity|exact Hd|].
  destruct (UserService.update "u1" demo_patch_new_email demo_session)
    as [[r|e] s'] eqn:Hrun; [|vm_compute in Hrun; discriminate Hrun].
  destruct (update_email_then_lookup demo_session demo_alice
              demo_patch_new_email "Alice.New@Example.com" r s'
              demo_table_ok Hin eq_refl)
    as [Hnew Hold]; [discriminate|exact Hd|exact Hrun|].
  exists r, s'. split_and!; [reflexivity|by apply Hnew|exact Hold].
Defined.

Lemma update_password_changes_only_hash_witness :
  table_ok (rows demo_session)
  ∧ demo_alice ∈ rows demo_session
  ∧ demo_verify_password "alice-pass-1" (User.password_hash demo_alice)
    = true
  ∧ ∃ user s',
      UserService.update_password demo_hash_password demo_verify_password
        "u1" "alice-pass-1" "alice-pass-2" demo_session
      = (Return user, s')
      ∧ User.password_hash user = demo_hash_password "alice-pass-2"
      ∧ User.email user = User.email demo_alice
      ∧ User.phone user = User.phone demo_alice
      ∧ (UserService.get_by_id "u1" s').1 = Return user
      ∧ (UserService.get_by_id "u2" s').1 = Return demo_bob.
Proof.
  assert (demo_alice ∈ rows demo_session) as Hin by left.
  assert (demo_bob ∈ rows demo_session) as Hbob by (right; left).
  destruct (update_password_changes_only_hash demo_hash_password
              demo_verify_password demo_session demo_alice
              "alice-pass-1" "alice-pass-2" demo_table_ok Hin eq_refl)
    as (user & s' & Hrun & Hst & Hget & Hothers & _).
  split_and!; [exact demo_table_ok|exact Hin|reflexivity|].
  exists user, s'. unfold stamped in Hst.
  split_and!; [exact Hrun|by rewrite Hst..|exact Hget|].
  apply (Hothers demo_bob Hbob). discriminate.
Defined.

Lemma delete_then_lookup_witness :
  table_ok (rows demo_session)
  ∧ demo_bob ∈ rows demo_session
  ∧ ∃ s',
      UserService.delete "u2" demo_session = (Return tt, s')
      ∧ (UserService.get_by_id "u2" s').1
        = Raise (UserNotFoundError "User with ID u2 not found")
      ∧ (UserService.get_by_id "u1" s').1 = Return demo_alice
      ∧ length (rows s') = 2%nat.
Proof.
  assert (demo_alice ∈ rows demo_session) as Hin by left.
  assert (demo_bob ∈ rows demo_session) as Hbob by (right; left).
  destruct (delete_then_lookup demo_verify_password demo_session demo_bob
              demo_table_ok Hbob)
    as (s' & Hrun & _ & Hgone & _ & Hothers & Hlen).
  split_and!; [exact demo_table_ok|exact Hbob|].
  exists s'. split_and!; [exact Hrun|exact Hgone| |].
  - apply (Hothers demo_alice Hin). discriminate.
  - simpl in Hlen. by injection Hlen as <-.
Defined.

Lemma delete_then_recreate_witness :
  table_ok (rows demo_session)
  ∧ demo_bob ∈ rows demo_session
  ∧ (∀ r phone, r ∈ rows demo_session → User.phone demo_bob = Some phone →
                User.phone r = Some phone → User.id r = User.id demo_bob)
  ∧ (∀ r, r ∈ rows demo_session → User.id r = User.default_id demo_defaults →
          User.id r = User.id demo_bob)
  ∧ lower (UserCreate.email demo_create_bob_again) = User.email demo_bob
  ∧ UserCreate.phone demo_create_bob_again = User.phone demo_bob
  ∧ ∃ user s',
      UserService.create demo_hash_password demo_defaults
        demo_create_bob_again (UserService.delete "u2" demo_session).2
      = (Return user, s')
      ∧ User.id user = "u4"
      ∧ User.email user = "bob@example.com"
      ∧ User.phone user = Some "076222222".
Proof.
  assert (demo_bob ∈ rows demo_session) as Hbob by (right; left).
  assert (∀ r phone, r ∈ rows demo_session →
                     User.phone demo_bob = Some phone →
                     User.phone r = Some phone →
                     User.id r = User.id demo_bob) as Hun.
  { intros r phone Hr [= <-] Hp. cbn in Hr.
    repeat match goal with
           | H : _ ∈ _ :: _ |- _ => apply elem_of_cons in H as [->|H]
           | H : _ ∈ [] |- _ => by apply elem_of_nil in H
           end; simpl in *; congruence. }
  assert (∀ r, r ∈ rows demo_session →
               User.id r = User.default_id demo_defaults →
               User.id r = User.id demo_bob) as Hids.
  { intros r Hr Hid. cbn in Hr.
    repeat match goal with
           | H : _ ∈ _ :: _ |- _ => apply elem_of_cons in H as [->|H]
           | H : _ ∈ [] |- _ => by apply elem_of_nil in H
           end; simpl in *; congruence. }
  destruct (delete_then_recreate demo_hash_password demo_defaults
              demo_create_bob_again demo_session demo_bob
              demo_table_ok Hbob Hun Hids eq_refl eq_refl)
    as (user & s' & Hrun & Hid & Hemail & Hphone).
  split_and!; [exact demo_table_ok|exact Hbob|exact Hun|exact Hids
              |reflexivity|reflexivity|].
  by exists user, s'.
Defined.

Lemma demo_history_reachable :
  reachable demo_hash_password demo_verify_password demo_history.
Proof.
  unfold demo_history, demo_history_2, demo_serve.
  repeat (apply reachable_serve; [|try exact I]).
  - apply reachable_empty.
  - split; [discriminate|]. apply (bool_decide_unpack _). by vm_compute.
  - split; [discriminate|]. apply (bool_decide_unpack _). by vm_compute.
  - split; [discriminate|]. apply (bool_decide_unpack _). by vm_compute.
Qed.

Lemma reachable_phones_unique_witness :
  reachable demo_hash_password demo_verify_password demo_history
  ∧ (User.phone <$> rows demo_history_2)
    = [Some "076555555"; Some "076222222"]
  ∧ (UserService.create demo_hash_password demo_defaults_last
       demo_create_hawa demo_history_2).1
    = Raise (UserAlreadyExistsError
               "User with phone 076222222 already exists")
  ∧ (User.phone <$> rows demo_history)
    = [Some "076555555"; Some "076222222"]
  ∧ phones_unique (rows demo_history).
Proof.
  split_and!; [exact demo_history_reachable|by vm_compute..|].
  exact (reachable_phones_unique demo_hash_password demo_verify_password
           demo_history demo_history_reachable).
Defined.

Lemma service_keeps_table_ok_witness :
  table_ok (rows demo_session)
  ∧ admissible (ReqCreate demo_defaults demo_create_fresh) demo_session
  ∧ table_ok
      (rows (serve demo_hash_password demo_verify_password
               (ReqCreate demo_defaults demo_create_fresh) demo_session)).
Proof.
  assert (admissible (ReqCreate demo_defaults demo_create_fresh)
            demo_session) as Hadm.
  { split; [discriminate|]. apply (bool_decide_unpack _). by vm_compute. }
  split_and!; [exact demo_table_ok|exact Hadm|].
  exact (proj1 (service_keeps_table_ok demo_hash_password
                  demo_verify_password)
           _ demo_session demo_table_ok Hadm).
Defined.

Lemma list_pages_cover_witness :
  ∃ ordered,
    ordered ≡ₚ filter (matches_active None) (rows demo_session)
    ∧ (0 ≤ 2)%Z
    ∧ (length ordered ≤ 2 * Z.to_nat 2)%nat
    ∧ concat (fetch_pages 2 2 None demo_session).1 = take 4 ordered
    ∧ concat (fetch_pages 2 2 None demo_session).1
      ≡ₚ filter (matches_active None) (rows demo_session).
Proof.
  destruct (list_pages_cover demo_session None)
    as (ordered & Hperm & _ & Hpages & _).
  destruct (Hpages 2%nat 2%Z) as [Htake Hall]; [lia|].
  assert (length ordered ≤ 2 * Z.to_nat 2)%nat as Hlen.
  { rewrite (Permutation_length Hperm).
    etransitivity; [apply length_filter|]. simpl. lia. }
  exists ordered.
  split_and!; [exact Hperm|lia|exact Hlen|exact Htake|by apply Hall].
Defined.

Lemma exists_agrees_with_get_witness :
  table_ok (rows demo_session)
  ∧ phones_unique (rows demo_session)
  ∧ "076222222" ≠ ""
  ∧ (UserRepository.exists_by_phone "076222222" demo_session).1
    = Return true
  ∧ (UserRepository.get_by_phone "076222222" demo_session).1
    = Return (Some demo_bob).
Proof.
  assert ("076222222" ≠ "") as Hne by discriminate.
  destruct (proj2 (exists_agrees_with_get demo_session demo_table_ok)
              demo_phones_unique "076222222" Hne)
    as [[Hex _]|[Hex _]]; [|discriminate Hex].
  split_and!; [exact demo_table_ok|exact demo_phones_unique|exact Hne
              |exact Hex|reflexivity].
Defined.

Lemma update_is_active_then_login_witness :
  table_ok (rows demo_session)
  ∧ demo_alice ∈ rows demo_session
  ∧ UserUpdate.is_active demo_patch_deactivate = Some false
  ∧ demo_verify_password "alice-pass-1" (User.password_hash demo_alice)
    = true
  ∧ ∃ r s',
      UserService.update "u1" demo_patch_deactivate demo_session
      = (Return r, s')
      ∧ (UserService.verify_credentials demo_verify_password
           "alice@example.com" "alice-pass-1" s').1
        = Raise (UserServiceError "User account is deactivated").
Proof.
  assert (demo_alice ∈ rows demo_session) as Hin by left.
  split_and!; [exact demo_table_ok|exact Hin|reflexivity|reflexivity|].
  destruct (UserService.update "u1" demo_patch_deactivate demo_session)
    as [[r|e] s'] eqn:Hrun; [|vm_compute in Hrun; discriminate Hrun].
  pose proof (update_is_active_then_login demo_verify_password
                demo_session demo_alice demo_patch_deactivate false r s'
                "alice-pass-1" demo_table_ok Hin eq_refl eq_refl Hrun)
    as Hlogin.
  assert (User.email r = "alice@example.com") as Hemail
    by (vm_compute in Hrun; by injection Hrun as <- _).
  exists r, s'. split; [reflexivity|]. by rewrite <- Hemail.
Defined.


End demonstration.
